(** * NanoSync: checkpoint / patch bookkeeping of [ezPatch]

    A shallow embedding of [src/index.js] (the differential-update engine)
    and [src/cli.js] (the command-line handler), with the properties of the
    specification stated over it.

    Modelling conventions, and with them the inputs the model covers.
    - The file system is a finite map from paths to text.  A path is either
      a path handed in by the caller ([Given], the filter file) or
      [path.resolve(dir, name)] for a directory and a plain file name
      ([Resolved]); directory strings are taken to be canonical, and a
      [lastFile] is taken to be a plain name as the tool generates it (no
      separator, no [..]), so two paths are the same file exactly when they
      are equal here.
    - The two folders exist and can be written: [mkdirp] and the writes of
      [writeFile] and [copyFile] succeed.  A write that fails half-way
      through a call is not represented; statements about a call that
      throws say nothing about what it wrote.
    - [config.json] and [meta.json] are only ever accessed through
      [JSON.parse] and [JSON.stringify]; they are stored by what
      [JSON.parse] yields on their text, as far as the program inspects it
      (fields the program never reads are not represented).  Writing
      [JSON.stringify v] stores [v]: that is the round trip of the JSON
      codec on the values the program writes.  A [config.json] that parses
      to a number, a string, a boolean or an array is not represented.
    - [mainConfig] is a JavaScript object used as a map: the model is a
      finite map, which is what the object is for keys that are ordinary
      property names.  The keys [__proto__] (assignment sets the prototype)
      and [hasOwnProperty] (an own member of that name shadows the method
      called on line 69) are not ordinary; statements about what
      [config.json] records carry [ordinary_key] and [ordinary_config].
    - JavaScript numbers are modelled by [Z]: version counters are integers
      far below 2^53, where [++], [+], [-] and [>] are exact
      ([exact_range]).  A [meta.json] or [config.json] holding a fractional
      or out-of-range number is not represented.
    - [Math.random] is an input of the call: the two strings
      [Math.random().toString(32).substring(2)] are the arguments [r1 r2].
    - [diff.createPatch] and the default output directory (computed by
      [path.extname], [path.basename], [path.dirname]) are external
      library functions; they are parameters of the development.
    - The function returns nothing in JavaScript; the model returns which
      branch ran ([outcome]) so that statements can refer to it. *)

From stdpp Require Import base option gmap strings pretty list.
From Stdlib Require Import ZArith Lia.

Local Open Scope Z_scope.

(** ** Paths and the file system *)

Inductive path : Type :=
  | Given (p : string)
  | Resolved (dir name : string).

#[global] Instance path_eq_dec : EqDecision path.
Proof. solve_decision. Defined.

#[global] Instance path_countable : Countable path.
Proof.
  refine (inj_countable'
    (λ p, match p with Given s => inl s | Resolved d n => inr (d, n) end)
    (λ x, match x with inl s => Given s | inr (d, n) => Resolved d n end) _).
  by intros [].
Defined.

(** [{lastFile: string|null, lastVersion: number}] *)
Record FilterConfig : Type := mkFilterConfig {
  lastFile : option string;
  lastVersion : Z;
}.

(** A value of [mainConfig[filter]] as the two assertions of lines 74-75
    see it. *)
Inductive ConfigEntry : Type :=
  | EntryNull                       (* [null]: reading [.lastFile] throws *)
  | EntryIllTyped                   (* fails one of the two assertions *)
  | Entry (fc : FilterConfig).

(** What [JSON.parse] yields on the text of [config.json].  Documents that
    parse to a primitive or an array are not represented. *)
Inductive ConfigFile : Type :=
  | ConfigUnparsable
  | ConfigNull
  | ConfigObject (m : gmap string ConfigEntry).

(** What [JSON.parse] yields on the text of [meta.json].  In [MetaObject]
    a field is [Some n] when it is the number [n] and [None] when it is
    absent or not a number. *)
Inductive MetaFile : Type :=
  | MetaUnparsable
  | MetaNull
  | MetaScalar                      (* number, string, boolean or array *)
  | MetaObject (checkpoint latest : option Z).

Record Disk : Type := mkDisk {
  text_files : gmap path string;
  meta_files : gmap string MetaFile;      (* output dir -> <dir>/meta.json *)
  config_files : gmap string ConfigFile;  (* config dir -> <dir>/config.json *)
}.

Definition empty_disk : Disk := mkDisk ∅ ∅ ∅.

(** ** Exceptions and the state-and-error monad of an [async] body *)

Inductive error : Type :=
  | AssertionError
  | TypeError
  | SyntaxError
  | IOError.

Inductive result (A : Type) : Type :=
  | Ok (a : A) (d : Disk)
  | Throw (e : error) (d : Disk).
Arguments Ok {A} a d.
Arguments Throw {A} e d.

Definition M (A : Type) : Type := Disk → result A.

#[global] Instance M_ret : MRet M := λ A a d, Ok a d.
#[global] Instance M_bind : MBind M := λ A B f m d,
  match m d with
  | Ok a d' => f a d'
  | Throw e d' => Throw e d'
  end.

Definition throw {A} (e : error) : M A := λ d, Throw e d.

(** [try { m } catch (err) { h }] *)
Definition try_catch {A} (m h : M A) : M A := λ d,
  match m d with
  | Ok a d' => Ok a d'
  | Throw _ d' => h d'
  end.

(** [assert(b)] *)
Definition assert (b : bool) : M unit :=
  if b then mret () else throw AssertionError.

(** JavaScript truthiness of a string: every string but the empty one. *)
Definition truthy (s : string) : bool := negb (String.eqb s "").

(** ** File-system primitives *)

Definition readFile (p : path) : M string := λ d,
  match text_files d !! p with
  | Some s => Ok s d
  | None => Throw IOError d
  end.

Definition writeFile (p : path) (s : string) : M unit := λ d,
  Ok () (mkDisk (<[p := s]> (text_files d)) (meta_files d) (config_files d)).

Definition copyFile (src dst : path) : M unit :=
  s ← readFile src; writeFile dst s.

(** [JSON.parse(await fs.readFile(path.resolve(config, "config.json")))]
    inside [try { } catch (err) { }]: a missing or unparsable file leaves
    [mainConfig = {}].  [None] stands for [null]. *)
Definition readConfig (config : string) : M (option (gmap string ConfigEntry)) :=
  λ d,
  match config_files d !! config with
  | Some (ConfigObject m) => Ok (Some m) d
  | Some ConfigNull => Ok None d
  | Some ConfigUnparsable | None => Ok (Some ∅) d
  end.

Definition writeConfig (config : string) (m : gmap string ConfigEntry) : M unit :=
  λ d,
  Ok () (mkDisk (text_files d) (meta_files d)
                (<[config := ConfigObject m]> (config_files d))).

(** Lines 103-105: read and parse [meta.json], then
    [assert(typeof meta.checkpoint === "number" && typeof meta.latest === "number")]. *)
Definition readMeta (output : string) : M (Z * Z) := λ d,
  match meta_files d !! output with
  | None => Throw IOError d
  | Some MetaUnparsable => Throw SyntaxError d
  | Some MetaNull => Throw TypeError d
  | Some MetaScalar => Throw AssertionError d
  | Some (MetaObject (Some c) (Some l)) => Ok (c, l) d
  | Some (MetaObject _ _) => Throw AssertionError d
  end.

Definition writeMeta (output : string) (c l : Z) : M unit := λ d,
  Ok () (mkDisk (text_files d)
                (<[output := MetaObject (Some c) (Some l)]> (meta_files d))
                (config_files d)).

(** [(n).toString() + ".patch"] *)
Definition patch_name (n : Z) : string := pretty n +:+ ".patch".

Inductive outcome : Type :=
  | DidCheckpoint
  | DidPatch
  | DidNothing.

#[global] Instance outcome_eq_dec : EqDecision outcome.
Proof. solve_decision. Defined.

(** ** The engine *)

Section Engine.

(** [diff.createPatch("nano-sync-patch", oldf, newf, "unknown-date", "unknown-date")] *)
Variable createPatch : string → string → string.

(** [path.resolve(path.dirname(filter), path.basename(filter, ext) + "-diff")] *)
Variable default_output : string → string.

(** Lines 78-89.  The closure mutates the captured [filterConfig]; the
    model returns the mutated record. *)
Definition createCheckpoint (filter output config : string)
    (filterConfig : FilterConfig) : M FilterConfig :=
  let filterConfig :=
    mkFilterConfig (lastFile filterConfig) (lastVersion filterConfig + 1) in
  copyFile (Given filter) (Resolved output "checkpoint.txt");;
  writeMeta output (lastVersion filterConfig) (lastVersion filterConfig);;
  match lastFile filterConfig with
  | Some f => copyFile (Given filter) (Resolved config f)
  | None => throw TypeError
  end;;
  mret filterConfig.

(** Lines 100-112: the [try] block and its [catch].  The result is
    [(meta, oldf)] when both loads succeed and [None] ([meta = oldf =
    null]) after the handler ran. *)
Definition gather (filter output config f : string)
    (filterConfig : FilterConfig)
    : M (option (Z * Z * string) * FilterConfig * outcome) :=
  try_catch
    (meta ← readMeta output;
     oldf ← readFile (Resolved config f);
     mret (Some (meta.1, meta.2, oldf), filterConfig, DidNothing))
    (filterConfig' ← createCheckpoint filter output config filterConfig;
     mret (None, filterConfig', DidCheckpoint)).

(** Lines 122-136. *)
Definition createPatchFiles (filter output config f : string)
    (checkpoint latest : Z) (oldf : string) : M FilterConfig :=
  newf ← readFile (Given filter);
  let patch := createPatch oldf newf in
  let latest := latest + 1 in
  let filterConfig := mkFilterConfig (Some f) latest in
  writeFile (Resolved output (patch_name (latest - checkpoint))) patch;;
  writeMeta output checkpoint latest;;
  writeFile (Resolved config f) newf;;
  mret filterConfig.

(** Lines 39-143.  [filterConfig] aliases [mainConfig[filter]], so the
    final [JSON.stringify(mainConfig)] sees every mutation made to it:
    the write-back stores the final record under [filter]. *)
Definition ezPatch (filter : string) (output config : option string)
    (r1 r2 : string) : M outcome :=
  assert (truthy filter);;
  let output := default (default_output filter) output in
  assert (truthy output);;
  let config := default "nano-sync-config" config in
  mainConfig ← readConfig config;
  match mainConfig with
  | None => throw TypeError
  | Some mainConfig =>
    filterConfig ←
      match mainConfig !! filter with
      | Some (Entry fc) => mret fc
      | Some EntryNull => throw TypeError
      | Some EntryIllTyped => throw AssertionError
      | None => mret (mkFilterConfig None (-1))
      end;
    '(filterConfig, o) ←
      match lastFile filterConfig with
      | None =>
        let filterConfig :=
          mkFilterConfig (Some (r1 +:+ r2 +:+ ".txt"))
                         (lastVersion filterConfig) in
        filterConfig ← createCheckpoint filter output config filterConfig;
        mret (filterConfig, DidCheckpoint)
      | Some f =>
        '(loaded, filterConfig, o) ←
          gather filter output config f filterConfig;
        match loaded with
        | Some (checkpoint, latest, oldf) =>
          if truthy oldf then
            if latest >? checkpoint + 10 then
              filterConfig ←
                createCheckpoint filter output config filterConfig;
              mret (filterConfig, DidCheckpoint)
            else
              filterConfig ← createPatchFiles filter output config f
                               checkpoint latest oldf;
              mret (filterConfig, DidPatch)
          else mret (filterConfig, o)
        | None => mret (filterConfig, o)
        end
      end;
    writeConfig config (<[filter := Entry filterConfig]> mainConfig);;
    mret o
  end.

End Engine.

(** ** The command-line handler ([src/cli.js])

    Both variants of the file share the option loop; [main] is the variant
    with the missing-filter check and the [try]/[catch] around the call. *)

Module Cli.

Record Options : Type := mkOptions {
  filter : option string;       (* [undefined] until assigned *)
  output : option string;
  config : option string;
  lastFlag : option string;
}.

Definition initial : Options := mkOptions None None None None.

(** [!x] for a variable that is [undefined] or a string. *)
Definition falsy (x : option string) : bool :=
  match x with
  | None => true
  | Some s => negb (truthy s)
  end.

(** [arg.startsWith("-")] *)
Definition startsWithDash (arg : string) : bool := String.prefix "-" arg.

(** One iteration of [for (let arg of process.argv)]: [inl msg] is
    [console.error(msg); process.exit(1)]. *)
Definition step (st : Options) (arg : string) : string + Options :=
  if falsy (filter st) then
    inr (mkOptions (Some arg) (output st) (config st) (lastFlag st))
  else if startsWithDash arg then
    match lastFlag st with
    | Some flag => inl ("Missing argument for option " +:+ flag)
    | None => inr (mkOptions (filter st) (output st) (config st) (Some arg))
    end
  else
    match lastFlag st with
    | None => inl "Missing flag"
    | Some flag =>
      if String.eqb flag "-o" then
        inr (mkOptions (filter st) (Some arg) (config st) None)
      else if String.eqb flag "-c" then
        inr (mkOptions (filter st) (output st) (Some arg) None)
      else inl ("Unknown option " +:+ flag)
    end.

Fixpoint parse (st : Options) (argv : list string) : string + Options :=
  match argv with
  | [] => inr st
  | arg :: argv =>
    match step st arg with
    | inl msg => inl msg
    | inr st => parse st argv
    end
  end.

(** What the process did: its exit code, the lines written to standard
    error, the arguments [ezPatch] was called with (if it was called) and
    the file system it leaves. *)
Record Process : Type := mkProcess {
  exit_code : Z;
  stderr : list string;
  called : option (string * option string * option string);
  disk : Disk;
}.

(** [console.error(err)] prints the exception; only its kind is kept. *)
Definition show_error (e : error) : string :=
  match e with
  | AssertionError => "AssertionError"
  | TypeError => "TypeError"
  | SyntaxError => "SyntaxError"
  | IOError => "Error"
  end.

Section Main.

Variable createPatch : string → string → string.
Variable default_output : string → string.

(** [process.argv] of [node script args...]: the interpreter, the
    script, then the arguments typed by the user. *)
Definition process_argv (execPath script : string) (args : list string)
    : list string :=
  execPath :: script :: args.

Definition main (argv : list string) (r1 r2 : string) (d : Disk) : Process :=
  match parse initial argv with
  | inl msg => mkProcess 1 [msg] None d
  | inr st =>
    match filter st with
    | Some f =>
      if truthy f then
        let cfg := if falsy (config st) then None else config st in
        match ezPatch createPatch default_output f (output st) cfg r1 r2 d with
        | Ok _ d' => mkProcess 0 [] (Some (f, output st, cfg)) d'
        | Throw e d' =>
          mkProcess 1 ["Something went wrong..."; show_error e]
                    (Some (f, output st, cfg)) d'
        end
      else mkProcess 1 ["Missing filter file"] None d
    | None => mkProcess 1 ["Missing filter file"] None d
    end
  end.

End Main.

End Cli.

(** The documented syntax of the options that follow the filter:
    [-o value] and [-c value], in any order and number. *)
Module CliSyntax.

Inductive Opt : Type :=
  | Output (value : string)
  | Config (value : string).

Definition value (o : Opt) : string :=
  match o with
  | Output v | Config v => v
  end.

Definition render (o : Opt) : list string :=
  match o with
  | Output v => ["-o"; v]
  | Config v => ["-c"; v]
  end.

(** The option takes effect: the variable it names holds its value. *)
Definition set (st : Cli.Options) (o : Opt) : Cli.Options :=
  match o with
  | Output v => Cli.mkOptions (Cli.filter st) (Some v) (Cli.config st) None
  | Config v => Cli.mkOptions (Cli.filter st) (Cli.output st) (Some v) None
  end.

End CliSyntax.

(** ** A build session: one filter, one output folder, one config folder *)

Record Call : Type := mkCall {
  content : string;     (* the text of the filter file at this call *)
  rand1 : string;
  rand2 : string;
}.

(** The author saves text [s] at the caller's path [p]. *)
Definition saved (p s : string) (d : Disk) : Disk :=
  mkDisk (<[Given p := s]> (text_files d)) (meta_files d) (config_files d).

Section Session.

Variable createPatch : string → string → string.
Variable default_output : string → string.
Variable applyPatch : string → string → string.
Variables filter output config : string.

(** The author saves the filter, then runs the tool. *)
Definition build (c : Call) : M outcome :=
  writeFile (Given filter) (content c);;
  ezPatch createPatch default_output filter (Some output) (Some config)
          (rand1 c) (rand2 c).

Fixpoint run (cs : list Call) : M (list outcome) :=
  match cs with
  | [] => mret []
  | c :: cs => o ← build c; os ← run cs; mret (o :: os)
  end.

(** The file system after the three ways a call can end, given the
    parsed [mainConfig] it started from; used to state what a call does. *)
Definition checkpointed (d : Disk) (m : gmap string ConfigEntry)
    (f : string) (v : Z) (s : string) : Disk :=
  mkDisk
    (<[Resolved config f := s]>
       (<[Resolved output "checkpoint.txt" := s]> (text_files d)))
    (<[output := MetaObject (Some v) (Some v)]> (meta_files d))
    (<[config := ConfigObject (<[filter := Entry (mkFilterConfig (Some f) v)]> m)]>
       (config_files d)).

Definition patched (d : Disk) (m : gmap string ConfigEntry)
    (f : string) (c l : Z) (oldf newf : string) : Disk :=
  mkDisk
    (<[Resolved config f := newf]>
       (<[Resolved output (patch_name (l + 1 - c)) := createPatch oldf newf]>
          (text_files d)))
    (<[output := MetaObject (Some c) (Some (l + 1))]> (meta_files d))
    (<[config := ConfigObject (<[filter := Entry (mkFilterConfig (Some f) (l + 1))]> m)]>
       (config_files d)).

Definition persisted (d : Disk) (m : gmap string ConfigEntry)
    (fc : FilterConfig) : Disk :=
  mkDisk
    (text_files d)
    (meta_files d)
    (<[config := ConfigObject (<[filter := Entry fc]> m)]> (config_files d)).

(** [mainConfig] as lines 58-62 leave it ([None] is [null]). *)
Definition mainConfig_of (d : Disk) : option (gmap string ConfigEntry) :=
  match config_files d !! config with
  | Some (ConfigObject m) => Some m
  | Some ConfigNull => None
  | Some ConfigUnparsable | None => Some ∅
  end.

(** Whether lines 103-105 get through on this [meta.json]. *)
Definition meta_loads (mf : option MetaFile) : bool :=
  match mf with
  | Some (MetaObject (Some _) (Some _)) => true
  | _ => false
  end.

(** Observations of the stores. *)
Definition meta_of (d : Disk) : option MetaFile := meta_files d !! output.

Definition entry_of (d : Disk) : option ConfigEntry :=
  match config_files d !! config with
  | Some (ConfigObject m) => m !! filter
  | _ => None
  end.

Definition lastVersion_of (d : Disk) : option Z :=
  match entry_of d with
  | Some (Entry fc) => Some (lastVersion fc)
  | _ => None
  end.

(** What a consumer of the output folder computes: [checkpoint.txt], then
    [1.patch], [2.patch], ... up to [latest - checkpoint], applied left to
    right. *)
Fixpoint apply_from (d : Disk) (k : Z) (n : nat) (acc : string) : option string :=
  match n with
  | O => Some acc
  | S n =>
    match text_files d !! Resolved output (patch_name k) with
    | Some p => apply_from d (k + 1) n (applyPatch acc p)
    | None => None
    end
  end.

Definition reconstruct (d : Disk) : option string :=
  match meta_files d !! output with
  | Some (MetaObject (Some c) (Some l)) =>
    match text_files d !! Resolved output "checkpoint.txt" with
    | Some base => apply_from d 1 (Z.to_nat (l - c)) base
    | None => None
    end
  | _ => None
  end.

(** The law assumed of the external diff library:
    [apply(oldText, diff(oldText, newText)) == newText]. *)
Definition patch_law : Prop := ∀ a b, applyPatch a (createPatch a b) = b.

(** The content of the last call of a session that produced a version. *)
Fixpoint last_produced (cs : list Call) (os : list outcome) (acc : option string)
    : option string :=
  match cs, os with
  | c :: cs, o :: os =>
    last_produced cs os (if decide (o = DidNothing) then acc else Some (content c))
  | _, _ => acc
  end.

(** The stores agree on a history: the filter's entry names snapshot
    [f] and version [l], [meta.json] holds [{checkpoint: c, latest: l}],
    and the cached snapshot holds [s]. *)
Definition in_sync (f : string) (c l : Z) (s : string) (d : Disk) : Prop :=
  entry_of d = Some (Entry (mkFilterConfig (Some f) l)) ∧
  meta_of d = Some (MetaObject (Some c) (Some l)) ∧
  text_files d !! Resolved config f = Some s.

(** The cached snapshot is not one of the files of the output folder
    that a consumer reads. *)
Definition private_snapshot (f : string) : Prop :=
  config ≠ output ∨ (f ≠ "checkpoint.txt" ∧ ∀ k : Z, f ≠ patch_name k).


End Session.

(** States that calls of the tool and saves of the author can produce from
    an empty file system, for any filters and folders. *)
Inductive reachable (createPatch : string → string → string)
    (default_output : string → string) : Disk → Prop :=
  | reach_empty : reachable createPatch default_output empty_disk
  | reach_save d p s :
      reachable createPatch default_output d →
      reachable createPatch default_output (saved p s d)
  | reach_call d filter output config r1 r2 o d' :
      reachable createPatch default_output d →
      ezPatch createPatch default_output filter output config r1 r2 d = Ok o d' →
      reachable createPatch default_output d'.

(** The invariant of the two metadata stores: every [meta.json] holds
    [latest >= checkpoint >= 0] and every recorded [lastVersion] is
    non-negative. *)
Definition meta_valid (mf : MetaFile) : Prop :=
  match mf with
  | MetaObject (Some c) (Some l) => 0 ≤ c ≤ l
  | _ => False
  end.

Definition entry_valid (e : ConfigEntry) : Prop :=
  match e with
  | Entry fc => 0 ≤ lastVersion fc
  | _ => False
  end.

Definition config_valid (cf : ConfigFile) : Prop :=
  match cf with
  | ConfigObject m => map_Forall (λ _ e, entry_valid e) m
  | _ => False
  end.

Definition disk_valid (d : Disk) : Prop :=
  map_Forall (λ _ mf, meta_valid mf) (meta_files d) ∧
  map_Forall (λ _ cf, config_valid cf) (config_files d).

(** ** Reading a result *)

Definition returned {A : Type} (r : result A) : option A :=
  match r with
  | Ok a _ => Some a
  | Throw _ _ => None
  end.

Definition final {A : Type} (r : result A) : Disk :=
  match r with
  | Ok _ d | Throw _ d => d
  end.

(** ** Sample data

    A diff that ships the whole new text, with the matching [apply]; a
    default output folder; a few calls. *)

Definition replace_diff (oldf newf : string) : string := newf.
Definition replace_apply (oldf patch : string) : string := patch.
Definition suffix_output (filter : string) : string := filter +:+ "-diff".

Definition sample_call (s : string) : Call := mkCall s "k3v9" "q0a7".

Definition eleven_calls : list Call :=
  sample_call <$> ["b"; "c"; "d"; "e"; "f"; "g"; "h"; "i"; "j"; "k"; "l"].

(** The file system after the first build of ["filter.txt"] with text
    ["a"], output folder ["out"] and config folder ["cfg"]. *)
Definition sample_disk : Disk :=
  checkpointed "filter.txt" "out" "cfg"
    (saved "filter.txt" "a" empty_disk) ∅ "k3v9q0a7.txt" 0 "a".

(** [sample_disk] with [meta.json] deleted and the filter saved anew. *)
Definition sample_disk_without_meta : Disk :=
  saved "filter.txt" "b"
    (mkDisk (text_files sample_disk) ∅ (config_files sample_disk)).

(** The file system after the first build of an empty ["filter.txt"]. *)
Definition sample_disk_empty_filter : Disk :=
  checkpointed "filter.txt" "out" "cfg"
    (saved "filter.txt" "" empty_disk) ∅ "k3v9q0a7.txt" 0 "".

(** [sample_disk] with [meta.json] edited by hand to
    [{"checkpoint":0,"latest":-5}]. *)
Definition sample_disk_edited_meta : Disk :=
  mkDisk (text_files sample_disk)
         (<["out" := MetaObject (Some 0) (Some (-5))]> (meta_files sample_disk))
         (config_files sample_disk).

(** [sample_disk] after the eleven further calls, and after one more. *)
Definition sample_disk_after_eleven : Disk :=
  final (run replace_diff suffix_output "filter.txt" "out" "cfg"
           eleven_calls sample_disk).

Definition sample_disk_rolled_over : Disk :=
  final (build replace_diff suffix_output "filter.txt" "out" "cfg"
           (sample_call "m") sample_disk_after_eleven).

(** [sample_disk_edited_meta] after one more call. *)
Definition sample_disk_patched_after_edit : Disk :=
  final (ezPatch replace_diff suffix_output "filter.txt" (Some "out")
           (Some "cfg") "k3v9" "q0a7" sample_disk_edited_meta).

(** [sample_disk] after the first build of a second filter that shares
    the config folder. *)
Definition sample_disk_second_filter : Disk :=
  final (ezPatch replace_diff suffix_output "other.txt" (Some "other-out")
           (Some "cfg") "m2x8" "t5b1" (saved "other.txt" "z" sample_disk)).

(** ** Sessions that change folder

    The same filter and config folder, an output folder chosen per call. *)

Fixpoint run_in (createPatch : string → string → string)
    (default_output : string → string) (filter config : string)
    (cs : list (string * Call)) : M (list outcome) :=
  match cs with
  | [] => mret []
  | (output, c) :: cs =>
    o ← build createPatch default_output filter output config c;
    os ← run_in createPatch default_output filter config cs;
    mret (o :: os)
  end.

(** Keys of [mainConfig] on which the object behaves as a map. *)
Definition ordinary_key (k : string) : Prop :=
  k ≠ "__proto__" ∧ k ≠ "hasOwnProperty".

Definition ordinary_config (m : gmap string ConfigEntry) : Prop :=
  m !! "hasOwnProperty" = None.

(** Integers on which the arithmetic of lines 117-131 is exact in double
    precision, and the [meta.json] files whose counters are such. *)
Definition exact_range (n : Z) : Prop := - 2 ^ 51 ≤ n ≤ 2 ^ 51.

Definition meta_exact (mf : option MetaFile) : Prop :=
  match mf with
  | Some (MetaObject (Some c) (Some l)) => exact_range c ∧ exact_range l
  | _ => True
  end.

(** A diff that is the old text followed by the new one; its [apply]
    strips the old text and leaves a text it does not start with as it
    is. *)
Fixpoint strip_prefix (p s : string) : option string :=
  match p, s with
  | EmptyString, _ => Some s
  | String a p, String b s => if Ascii.eqb a b then strip_prefix p s else None
  | String _ _, EmptyString => None
  end.

Definition prefix_diff (oldf newf : string) : string := oldf +:+ newf.

Definition prefix_apply (oldf patch : string) : string :=
  match strip_prefix oldf patch with
  | Some rest => rest
  | None => oldf
  end.

(** Six calls on ["filter.txt"]: two into folder ["o1"], three into
    ["o2"], one into ["o1"] again. *)
Definition two_folder_calls : list (string * Call) :=
  [("o1", sample_call "a"); ("o1", sample_call "b");
   ("o2", sample_call "c"); ("o2", sample_call "d"); ("o2", sample_call "e");
   ("o1", sample_call "f")].

(** An empty ["filter.txt"] built into ["o1"], then into ["o2"], then,
    with some text, into ["o1"] again. *)
Definition empty_filter_calls : list (string * Call) :=
  [("o1", sample_call ""); ("o2", sample_call ""); ("o1", sample_call "x")].

(** * Properties *)

(** ** Strings and names *)

Lemma truthy_true (s : string) : truthy s = true ↔ s ≠ "".
Proof.
  unfold truthy. destruct (String.eqb_spec s ""); simpl; split; congruence.
Qed.

Lemma string_length_app (a b : string) :
  String.length (a +:+ b) = (String.length a + String.length b)%nat.
Proof. induction a as [|x a IH]; simpl; [done | by rewrite IH]. Qed.

Lemma string_app_inv_tail (a b s : string) : a +:+ s = b +:+ s → a = b.
Proof.
  revert b. induction a as [|x a IH]; intros [|y b] H; simpl in H.
  - done.
  - apply (f_equal String.length) in H.
    rewrite !string_length_app in H. simpl in H. lia.
  - apply (f_equal String.length) in H.
    rewrite !string_length_app in H. simpl in H. lia.
  - injection H as -> H. f_equal. by apply IH.
Qed.

Lemma patch_name_inj (n m : Z) : patch_name n = patch_name m → n = m.
Proof.
  unfold patch_name. intros H%string_app_inv_tail. by apply (inj pretty).
Qed.

Lemma patch_name_not_checkpoint (n : Z) : patch_name n ≠ "checkpoint.txt".
Proof.
  unfold patch_name. generalize (pretty n). intros s H.
  do 14 (destruct s as [|? s]; simpl in H;
         [discriminate H | injection H as _ H]).
  destruct s; discriminate H.
Qed.

(** ** What one call does *)

Section Steps.

Variable createPatch : string → string → string.
Variable default_output : string → string.
Variables filter out cfg : string.

Local Abbreviation call :=
  (ezPatch createPatch default_output filter (Some out) (Some cfg)).
Local Abbreviation checkpoint_at := (checkpointed filter out cfg).
Local Abbreviation patch_at := (patched createPatch filter out cfg).
Local Abbreviation persist_at := (persisted filter cfg).
Local Abbreviation mainConfig := (mainConfig_of cfg).

Hypothesis filter_ok : truthy filter = true.
Hypothesis out_ok : truthy out = true.

Lemma readConfig_eq (d : Disk) : readConfig cfg d = Ok (mainConfig d) d.
Proof.
  unfold readConfig, mainConfig_of.
  by destruct (config_files d !! cfg) as [[]|].
Qed.

Ltac run_monad :=
  unfold ezPatch, gather, createCheckpoint, createPatchFiles,
    copyFile, try_catch, assert, throw;
  unfold mbind, M_bind, mret, M_ret, writeFile, writeMeta, writeConfig,
    readFile, readMeta; simpl.

Ltac fs_simpl :=
  simpl;
  repeat (first [ rewrite lookup_insert_eq
                | rewrite lookup_insert_ne by done ]; simpl).

Ltac step_tac Hm :=
  run_monad; rewrite filter_ok, out_ok; simpl;
  rewrite readConfig_eq, Hm; simpl.

(** First build: no usable entry for the filter. *)
Lemma ezPatch_first (r1 r2 : string) (d : Disk) (m : gmap string ConfigEntry)
    (v : Z) (s : string) :
  mainConfig d = Some m →
  (m !! filter = None ∧ v = -1) ∨
    m !! filter = Some (Entry (mkFilterConfig None v)) →
  text_files d !! Given filter = Some s →
  call r1 r2 d =
    Ok DidCheckpoint (checkpoint_at d m (r1 +:+ r2 +:+ ".txt") (v + 1) s).
Proof.
  intros Hm Hent Hs. step_tac Hm.
  destruct Hent as [[-> ->] | ->]; simpl; rewrite Hs; fs_simpl;
    rewrite Hs; by fs_simpl.
Qed.

(** Broken history: [meta.json] or the snapshot does not load. *)
Lemma ezPatch_recover (r1 r2 : string) (d : Disk) (m : gmap string ConfigEntry)
    (f : string) (v : Z) (s : string) :
  mainConfig d = Some m →
  m !! filter = Some (Entry (mkFilterConfig (Some f) v)) →
  text_files d !! Given filter = Some s →
  meta_loads (meta_files d !! out) = false ∨
    text_files d !! Resolved cfg f = None →
  call r1 r2 d = Ok DidCheckpoint (checkpoint_at d m f (v + 1) s).
Proof.
  intros Hm Hent Hs Hbad. step_tac Hm. rewrite Hent. simpl.
  destruct (meta_files d !! out) as [[| | |[c0|] [l|]]|] eqn:E; simpl;
    try (rewrite Hs; fs_simpl; rewrite Hs; by fs_simpl).
  destruct Hbad as [Hmeta | Hsnap]; [done|].
  rewrite Hsnap. simpl. rewrite Hs; fs_simpl; rewrite Hs; by fs_simpl.
Qed.

(** Intact history within the threshold: a patch. *)
Lemma ezPatch_patch (r1 r2 : string) (d : Disk) (m : gmap string ConfigEntry)
    (f : string) (v c0 l : Z) (oldf newf : string) :
  mainConfig d = Some m →
  m !! filter = Some (Entry (mkFilterConfig (Some f) v)) →
  text_files d !! Given filter = Some newf →
  meta_files d !! out = Some (MetaObject (Some c0) (Some l)) →
  text_files d !! Resolved cfg f = Some oldf →
  oldf ≠ "" →
  l ≤ c0 + 10 →
  call r1 r2 d = Ok DidPatch (patch_at d m f c0 l oldf newf).
Proof.
  intros Hm Hent Hs Hmeta Hsnap Hne Hle. step_tac Hm. rewrite Hent. simpl.
  rewrite Hmeta. simpl. rewrite Hsnap. simpl.
  apply truthy_true in Hne. rewrite Hne.
  destruct (Z.gtb_spec l (c0 + 10)); [lia|]. rewrite Hs. by fs_simpl.
Qed.

(** Intact history beyond the threshold: a checkpoint. *)
Lemma ezPatch_rollover (r1 r2 : string) (d : Disk) (m : gmap string ConfigEntry)
    (f : string) (v c0 l : Z) (oldf s : string) :
  mainConfig d = Some m →
  m !! filter = Some (Entry (mkFilterConfig (Some f) v)) →
  text_files d !! Given filter = Some s →
  meta_files d !! out = Some (MetaObject (Some c0) (Some l)) →
  text_files d !! Resolved cfg f = Some oldf →
  oldf ≠ "" →
  c0 + 10 < l →
  call r1 r2 d = Ok DidCheckpoint (checkpoint_at d m f (v + 1) s).
Proof.
  intros Hm Hent Hs Hmeta Hsnap Hne Hlt. step_tac Hm. rewrite Hent. simpl.
  rewrite Hmeta. simpl. rewrite Hsnap. simpl.
  apply truthy_true in Hne. rewrite Hne.
  destruct (Z.gtb_spec l (c0 + 10)); [|lia].
  rewrite Hs; fs_simpl; rewrite Hs; by fs_simpl.
Qed.

(** Intact history whose cached snapshot is the empty text: [oldf] is
    falsy, so neither branch of line 115 runs. *)
Lemma ezPatch_noop (r1 r2 : string) (d : Disk) (m : gmap string ConfigEntry)
    (f : string) (v c0 l : Z) :
  mainConfig d = Some m →
  m !! filter = Some (Entry (mkFilterConfig (Some f) v)) →
  meta_files d !! out = Some (MetaObject (Some c0) (Some l)) →
  text_files d !! Resolved cfg f = Some "" →
  call r1 r2 d = Ok DidNothing (persist_at d m (mkFilterConfig (Some f) v)).
Proof.
  intros Hm Hent Hmeta Hsnap. step_tac Hm. rewrite Hent. simpl.
  rewrite Hmeta. simpl. rewrite Hsnap. by simpl.
Qed.

(** Every way a call can return. *)
Lemma ezPatch_inv (r1 r2 : string) (d d' : Disk) (o : outcome) :
  call r1 r2 d = Ok o d' →
  ∃ m fc,
    mainConfig d = Some m ∧
    (m !! filter = Some (Entry fc) ∨
     (m !! filter = None ∧ fc = mkFilterConfig None (-1))) ∧
    ((o = DidCheckpoint ∧
      ∃ f s, text_files d !! Given filter = Some s ∧
             d' = checkpoint_at d m f (lastVersion fc + 1) s) ∨
     (o = DidPatch ∧
      ∃ f c l oldf newf,
        lastFile fc = Some f ∧
        meta_files d !! out = Some (MetaObject (Some c) (Some l)) ∧
        l ≤ c + 10 ∧
        d' = patch_at d m f c l oldf newf) ∨
     (o = DidNothing ∧ is_Some (lastFile fc) ∧ d' = persist_at d m fc)).
Proof.
  unfold ezPatch, gather, createCheckpoint, createPatchFiles,
    copyFile, try_catch, assert, throw.
  unfold mbind, M_bind, mret, M_ret, writeFile, writeMeta, writeConfig,
    readFile, readMeta. simpl.
  rewrite filter_ok, out_ok. simpl. rewrite readConfig_eq.
  intros H.
  destruct (mainConfig d) as [m|] eqn:Hm; [|done]. simpl in H.
  exists m.
  destruct (m !! filter) as [[| |fc]|] eqn:Hent; simpl in H; try done;
    [exists fc | exists (mkFilterConfig None (-1))];
    (split; [done|]); (split; [by eauto|]).
  - destruct fc as [[f|] v]; simpl in H.
    + destruct (meta_files d !! out) as [[| | |[c|] [l|]]|] eqn:Hmeta;
        simpl in H;
        repeat (case_match; simplify_eq/=); try done.
      all: try (left; split; [done|]; eexists _, _; split; [done|];
                simplify_map_eq; done).
      * right; left. split; [done|]. eexists _, _, _, _, _.
        repeat split; try done.
        apply Z.ltb_ge. by rewrite <- Z.gtb_ltb.
      * by right; right.
    + repeat (case_match; simplify_eq/=); try done.
      left; split; [done|]; eexists _, _; split; [done|].
      by simplify_map_eq.
  - repeat (case_match; simplify_eq/=); try done.
    left; split; [done|]; eexists _, _; split; [done|].
    by simplify_map_eq.
Qed.

End Steps.

Lemma ezPatch_defaults (createPatch : string → string → string)
    (default_output : string → string) (filter : string)
    (output config : option string) (r1 r2 : string) (d : Disk) :
  ezPatch createPatch default_output filter output config r1 r2 d =
  ezPatch createPatch default_output filter
    (Some (default (default_output filter) output))
    (Some (default "nano-sync-config" config)) r1 r2 d.
Proof. reflexivity. Qed.

(** ** Sessions *)

Section SessionFacts.

Variable createPatch : string → string → string.
Variable default_output : string → string.
Variables filter output config : string.

Local Abbreviation build1 :=
  (build createPatch default_output filter output config).
Local Abbreviation run1 :=
  (run createPatch default_output filter output config).
Local Abbreviation checkpoint_at := (checkpointed filter output config).
Local Abbreviation patch_at := (patched createPatch filter output config).
Local Abbreviation persist_at := (persisted filter config).
Local Abbreviation sync := (in_sync filter output config).
Local Abbreviation entry := (entry_of filter config).
Local Abbreviation meta := (meta_of output).

Hypothesis filter_ok : truthy filter = true.
Hypothesis output_ok : truthy output = true.

Lemma build_eq (c : Call) (d : Disk) :
  build1 c d =
  ezPatch createPatch default_output filter (Some output) (Some config)
    (rand1 c) (rand2 c) (saved filter (content c) d).
Proof. reflexivity. Qed.

Lemma run_cons (c : Call) (cs : list Call) (d : Disk) :
  run1 (c :: cs) d =
  match build1 c d with
  | Ok o d1 =>
    match run1 cs d1 with
    | Ok os d2 => Ok (o :: os) d2
    | Throw e d2 => Throw e d2
    end
  | Throw e d1 => Throw e d1
  end.
Proof. reflexivity. Qed.


Lemma entry_mainConfig (d : Disk) (e : ConfigEntry) :
  entry d = Some e →
  ∃ m, mainConfig_of config d = Some m ∧ m !! filter = Some e.
Proof.
  unfold entry_of, mainConfig_of.
  destruct (config_files d !! config) as [[| |m]|]; try done. eauto.
Qed.

Lemma sync_checkpoint_at (d : Disk) (m : gmap string ConfigEntry)
    (f : string) (v : Z) (s : string) :
  sync f v v s (checkpoint_at d m f v s).
Proof.
  unfold in_sync, entry_of, meta_of. simpl.
  by rewrite !lookup_insert_eq.
Qed.

Lemma sync_patch_at (d : Disk) (m : gmap string ConfigEntry)
    (f : string) (c l : Z) (oldf newf : string) :
  sync f c (l + 1) newf (patch_at d m f c l oldf newf).
Proof.
  unfold in_sync, entry_of, meta_of. simpl.
  by rewrite !lookup_insert_eq.
Qed.

Lemma sync_persist_at (d : Disk) (m : gmap string ConfigEntry)
    (f : string) (c l : Z) (s s' : string) :
  sync f c l s d →
  sync f c l s (persist_at (saved filter s' d) m (mkFilterConfig (Some f) l)).
Proof.
  unfold in_sync, entry_of, meta_of. simpl. intros (_ & ? & ?).
  rewrite !lookup_insert_eq. by rewrite lookup_insert_ne.
Qed.

(** One call on a history on which the stores agree. *)
Lemma build_sync (call : Call) (d : Disk) (f : string) (c l : Z) (s : string) :
  sync f c l s d →
  ∃ m, mainConfig_of config d = Some m ∧
    let d0 := saved filter (content call) d in
    if decide (s = "") then
      build1 call d = Ok DidNothing (persist_at d0 m (mkFilterConfig (Some f) l))
    else if decide (l ≤ c + 10) then
      build1 call d = Ok DidPatch (patch_at d0 m f c l s (content call))
    else
      build1 call d = Ok DidCheckpoint (checkpoint_at d0 m f (l + 1) (content call)).
Proof.
  intros (Hent & Hmeta & Hsnap).
  destruct (entry_mainConfig _ _ Hent) as (m & Hm & Hm').
  exists m. split; [done|]. intros d0. rewrite build_eq. fold d0.
  assert (Hs : text_files d0 !! Given filter = Some (content call))
    by (unfold d0; simpl; by rewrite lookup_insert_eq).
  assert (Hsnap0 : text_files d0 !! Resolved config f = Some s)
    by (unfold d0; simpl; by rewrite lookup_insert_ne).
  repeat case_decide.
  - subst s. by eapply ezPatch_noop.
  - by eapply ezPatch_patch.
  - eapply ezPatch_rollover; try done. lia.
Qed.

End SessionFacts.

(** ** Rollover *)

Section Rollover.

Variable createPatch : string → string → string.
Variable default_output : string → string.
Variables filter output config : string.

Local Abbreviation build1 :=
  (build createPatch default_output filter output config).
Local Abbreviation run1 :=
  (run createPatch default_output filter output config).
Local Abbreviation sync := (in_sync filter output config).

Hypothesis filter_ok : truthy filter = true.
Hypothesis output_ok : truthy output = true.

(** While the span stays within the threshold every call is a patch. *)
Lemma run_patches (cs : list Call) (d : Disk) (f : string) (c l : Z)
    (s : string) :
  sync f c l s d →
  s ≠ "" →
  Forall (λ call, content call ≠ "") cs →
  l + Z.of_nat (length cs) ≤ c + 11 →
  ∃ d' s',
    run1 cs d = Ok (replicate (length cs) DidPatch) d' ∧
    sync f c (l + Z.of_nat (length cs)) s' d' ∧ s' ≠ "".
Proof.
  revert d l s. induction cs as [|call cs IH]; intros d l s Hsync Hs Hall Hlen.
  - exists d, s. simpl. rewrite Z.add_0_r. done.
  - apply Forall_cons in Hall as [Hcall Hall]. simpl length in *.
    destruct (build_sync createPatch default_output _ _ _ filter_ok output_ok
                call d f c l s Hsync) as (m & _ & Hb).
    simpl in Hb. rewrite decide_False in Hb by done.
    rewrite decide_True in Hb by lia.
    destruct (IH _ (l + 1) (content call)
                (sync_patch_at createPatch filter output config
                   (saved filter (content call) d) m f c l s (content call))
                Hcall Hall ltac:(lia)) as (d' & s' & Hrun & Hsync' & Hs').
    exists d', s'. rewrite run_cons, Hb, Hrun. simpl.
    replace (l + Z.of_nat (S (length cs))) with (l + 1 + Z.of_nat (length cs))
      by lia.
    done.
Qed.

(** A call on an intact history with a non-empty snapshot and a span
    within the threshold patches even when the text did not change. *)
Lemma unchanged_content_still_patches (d : Disk) (f : string) (c l : Z)
    (s r1 r2 : string) :
  sync f c l s d →
  s ≠ "" →
  l ≤ c + 10 →
  ∃ d',
    build1 (mkCall s r1 r2) d = Ok DidPatch d' ∧
    meta_of output d' = Some (MetaObject (Some c) (Some (l + 1))) ∧
    lastVersion_of filter config d' = Some (l + 1).
Proof.
  intros Hsync Hs Hl.
  destruct (build_sync createPatch default_output _ _ _ filter_ok output_ok
              (mkCall s r1 r2) d f c l s Hsync) as (m & _ & Hb).
  cbv zeta in Hb. rewrite decide_False in Hb by done.
  rewrite decide_True in Hb by done.
  eexists. split; [exact Hb|].
  unfold meta_of, lastVersion_of, entry_of. simpl.
  by rewrite !lookup_insert_eq.
Qed.

End Rollover.

(** C1 (as amended).  After a checkpoint at version [v], with the history
    intact and every text non-empty, eleven successive calls are eleven
    patches and none of them re-checkpoints; the twelfth call is the one
    that re-checkpoints, and it leaves [checkpoint = latest = v + 12]. *)
Theorem rollover_at_twelfth_call (createPatch : string → string → string)
    (default_output : string → string) (filter output config : string)
    (cs : list Call) (c12 : Call) (d : Disk) (f : string) (v : Z) (s : string) :
  truthy filter = true →
  truthy output = true →
  in_sync filter output config f v v s d →
  s ≠ "" →
  length cs = 11%nat →
  Forall (λ call, content call ≠ "") cs →
  ∃ d11 d12,
    run createPatch default_output filter output config cs d
      = Ok (replicate 11 DidPatch) d11 ∧
    meta_of output d11 = Some (MetaObject (Some v) (Some (v + 11))) ∧
    build createPatch default_output filter output config c12 d11
      = Ok DidCheckpoint d12 ∧
    meta_of output d12 = Some (MetaObject (Some (v + 12)) (Some (v + 12))).
Proof.
  intros Hf Ho Hsync Hs Hlen Hall.
  destruct (run_patches createPatch default_output filter output config Hf Ho
              cs d f v v s Hsync Hs Hall ltac:(lia))
    as (d11 & s11 & Hrun & Hsync11 & Hs11).
  rewrite Hlen in Hrun, Hsync11. simpl Z.of_nat in Hsync11.
  destruct (build_sync createPatch default_output _ _ _ Hf Ho
              c12 d11 f v (v + 11) s11 Hsync11) as (m & _ & Hb).
  simpl in Hb. rewrite decide_False in Hb by done.
  rewrite decide_False in Hb by lia.
  eexists d11, _. split; [done|]. split; [apply Hsync11|].
  split; [exact Hb|].
  replace (v + 12) with (v + 11 + 1) by lia.
  apply sync_checkpoint_at.
Qed.

Lemma rollover_at_twelfth_call_witness :
  ∃ d11 d12,
    run replace_diff suffix_output "filter.txt" "out" "cfg" eleven_calls sample_disk
      = Ok (replicate 11 DidPatch) d11 ∧
    meta_of "out" d11 = Some (MetaObject (Some 0) (Some (0 + 11))) ∧
    build replace_diff suffix_output "filter.txt" "out" "cfg" (sample_call "m") d11
      = Ok DidCheckpoint d12 ∧
    meta_of "out" d12 = Some (MetaObject (Some (0 + 12)) (Some (0 + 12))).
Proof.
  apply (rollover_at_twelfth_call replace_diff suffix_output
           "filter.txt" "out" "cfg" eleven_calls (sample_call "m")
           sample_disk "k3v9q0a7.txt" 0 "a").
  - reflexivity.
  - reflexivity.
  - repeat split; vm_compute; reflexivity.
  - discriminate.
  - reflexivity.
  - repeat constructor; discriminate.
Defined.

(** C1 (as stated) fails: after the first build of the sample filter
    (a checkpoint at version 0), eleven successive calls with changed
    content are eleven patches; no re-checkpoint happens at the eleventh
    call, and [meta.json] ends with [checkpoint = 0] and [latest = 11]. *)
Lemma eleven_calls_do_not_rollover :
  returned (run replace_diff suffix_output "filter.txt" "out" "cfg"
              (sample_call "a" :: eleven_calls) empty_disk)
    = Some (DidCheckpoint :: replicate 11 DidPatch) ∧
  meta_of "out"
    (final (run replace_diff suffix_output "filter.txt" "out" "cfg"
              (sample_call "a" :: eleven_calls) empty_disk))
    = Some (MetaObject (Some 0) (Some 11)).
Proof. split; vm_compute; reflexivity. Qed.

(** ** Single calls *)

(** C4.  For a filter that has no entry in the global config (the config
    file may be missing, unparsable, or an object without that key),
    whatever the text of the filter and whatever the output folder already
    holds, the call performs a checkpoint and writes
    [{checkpoint: 0, latest: 0}] to [meta.json]. *)
Theorem first_build_checkpoints (createPatch : string → string → string)
    (default_output : string → string) (filter : string)
    (output config : option string) (r1 r2 : string) (d : Disk)
    (m : gmap string ConfigEntry) (s : string) :
  let out := default (default_output filter) output in
  let cfg := default "nano-sync-config" config in
  truthy filter = true →
  truthy out = true →
  mainConfig_of cfg d = Some m →
  m !! filter = None →
  text_files d !! Given filter = Some s →
  ∃ d',
    ezPatch createPatch default_output filter output config r1 r2 d
      = Ok DidCheckpoint d' ∧
    meta_files d' !! out = Some (MetaObject (Some 0) (Some 0)) ∧
    text_files d' !! Resolved out "checkpoint.txt" = Some s ∧
    lastVersion_of filter cfg d' = Some 0.
Proof.
  intros out cfg Hf Ho Hm Hent Hs. rewrite ezPatch_defaults. fold out cfg.
  eexists. split.
  - eapply (ezPatch_first createPatch default_output filter out cfg Hf Ho
              r1 r2 d m (-1) s); eauto.
  - unfold lastVersion_of, entry_of. simpl. rewrite !lookup_insert_eq.
    split; [done|]. split; [|done].
    rewrite lookup_insert. case_decide; [done|]. by rewrite lookup_insert_eq.
Qed.

Lemma first_build_checkpoints_witness :
  ∃ d',
    ezPatch replace_diff suffix_output "filter.txt" (Some "out") None
      "k3v9" "q0a7" (saved "filter.txt" "a" empty_disk)
      = Ok DidCheckpoint d' ∧
    meta_files d' !! "out" = Some (MetaObject (Some 0) (Some 0)) ∧
    text_files d' !! Resolved "out" "checkpoint.txt" = Some "a" ∧
    lastVersion_of "filter.txt" "nano-sync-config" d' = Some 0.
Proof.
  apply (first_build_checkpoints replace_diff suffix_output "filter.txt"
           (Some "out") None "k3v9" "q0a7"
           (saved "filter.txt" "a" empty_disk) ∅ "a");
    reflexivity.
Defined.

(** C3.  On a filter that was checkpointed before (its entry names a
    snapshot), if [meta.json] is missing, unparsable, not an object or has
    a [checkpoint] or [latest] that is not a number, or if the cached
    snapshot is missing, the call returns normally, writes a fresh
    checkpoint, and [meta.json] then has [checkpoint = latest]. *)
Theorem broken_history_recovers (createPatch : string → string → string)
    (default_output : string → string) (filter : string)
    (output config : option string) (r1 r2 : string) (d : Disk)
    (m : gmap string ConfigEntry) (f : string) (v : Z) (s : string) :
  let out := default (default_output filter) output in
  let cfg := default "nano-sync-config" config in
  truthy filter = true →
  truthy out = true →
  mainConfig_of cfg d = Some m →
  m !! filter = Some (Entry (mkFilterConfig (Some f) v)) →
  text_files d !! Given filter = Some s →
  meta_loads (meta_files d !! out) = false ∨
    text_files d !! Resolved cfg f = None →
  ∃ d',
    ezPatch createPatch default_output filter output config r1 r2 d
      = Ok DidCheckpoint d' ∧
    meta_files d' !! out = Some (MetaObject (Some (v + 1)) (Some (v + 1))) ∧
    text_files d' !! Resolved out "checkpoint.txt" = Some s ∧
    text_files d' !! Resolved cfg f = Some s.
Proof.
  intros out cfg Hf Ho Hm Hent Hs Hbad. rewrite ezPatch_defaults. fold out cfg.
  eexists. split.
  - by eapply (ezPatch_recover createPatch default_output filter out cfg Hf Ho).
  - simpl. rewrite !lookup_insert_eq. split; [done|]. split; [|done].
    rewrite lookup_insert. case_decide; [done|]. by rewrite lookup_insert_eq.
Qed.

Lemma broken_history_recovers_witness :
  ∃ d',
    ezPatch replace_diff suffix_output "filter.txt" (Some "out") (Some "cfg")
      "k3v9" "q0a7" sample_disk_without_meta
      = Ok DidCheckpoint d' ∧
    meta_files d' !! "out" = Some (MetaObject (Some (0 + 1)) (Some (0 + 1))) ∧
    text_files d' !! Resolved "out" "checkpoint.txt" = Some "b" ∧
    text_files d' !! Resolved "cfg" "k3v9q0a7.txt" = Some "b".
Proof.
  apply (broken_history_recovers replace_diff suffix_output "filter.txt"
           (Some "out") (Some "cfg") "k3v9" "q0a7" sample_disk_without_meta
           (<["filter.txt" := Entry (mkFilterConfig (Some "k3v9q0a7.txt") 0)]> ∅)
           "k3v9q0a7.txt" 0 "b").
  - reflexivity.
  - reflexivity.
  - vm_compute. reflexivity.
  - vm_compute. reflexivity.
  - vm_compute. reflexivity.
  - left. vm_compute. reflexivity.
Defined.

(** C6 (the code departs from it).  When [meta.json] and the cached
    snapshot both load but the cached snapshot is the empty text, the call
    performs neither a patch nor a checkpoint: it returns normally, the
    version counters stay as they were and no file of the output folder is
    written. *)
Theorem empty_snapshot_skips_patch (createPatch : string → string → string)
    (default_output : string → string) (filter output config : string)
    (call : Call) (d : Disk) (f : string) (c l : Z) :
  truthy filter = true →
  truthy output = true →
  in_sync filter output config f c l "" d →
  ∃ d',
    build createPatch default_output filter output config call d
      = Ok DidNothing d' ∧
    meta_of output d' = Some (MetaObject (Some c) (Some l)) ∧
    lastVersion_of filter config d' = Some l ∧
    ∀ name, text_files d' !! Resolved output name
            = text_files d !! Resolved output name.
Proof.
  intros Hf Ho Hsync.
  destruct (build_sync createPatch default_output _ _ _ Hf Ho call d f c l ""
              Hsync) as (m & _ & Hb).
  cbv zeta in Hb. rewrite decide_True in Hb by done.
  eexists. split; [exact Hb|].
  destruct Hsync as (_ & Hmeta & _).
  split; [exact Hmeta|]. split.
  - unfold lastVersion_of, entry_of. simpl. by rewrite !lookup_insert_eq.
  - intros name. simpl. by rewrite lookup_insert_ne.
Qed.

Lemma empty_snapshot_skips_patch_witness :
  ∃ d',
    build replace_diff suffix_output "filter.txt" "out" "cfg"
      (sample_call "a") sample_disk_empty_filter
      = Ok DidNothing d' ∧
    meta_of "out" d' = Some (MetaObject (Some 0) (Some 0)) ∧
    lastVersion_of "filter.txt" "cfg" d' = Some 0 ∧
    ∀ name, text_files d' !! Resolved "out" name
            = text_files sample_disk_empty_filter !! Resolved "out" name.
Proof.
  apply (empty_snapshot_skips_patch replace_diff suffix_output
           "filter.txt" "out" "cfg" (sample_call "a")
           sample_disk_empty_filter "k3v9q0a7.txt" 0 0).
  - reflexivity.
  - reflexivity.
  - repeat split; vm_compute; reflexivity.
Defined.

(** ** The command line *)

(** C7 (the code departs from it).  The option loop runs over the whole of
    [process.argv], whose first two entries are the interpreter and the
    script: the interpreter path is taken as the filter, and the script
    path, which is no option, ends the process with code 1 and
    ["Missing flag"] before [ezPatch] is ever called, whatever the user
    typed. *)
Theorem cli_rejects_every_invocation (createPatch : string → string → string)
    (default_output : string → string) (execPath script : string)
    (args : list string) (r1 r2 : string) (d : Disk) :
  truthy execPath = true →
  Cli.startsWithDash script = false →
  Cli.main createPatch default_output (Cli.process_argv execPath script args)
           r1 r2 d
    = Cli.mkProcess 1 ["Missing flag"] None d.
Proof.
  intros Hexec Hscript.
  unfold Cli.main, Cli.process_argv. simpl.
  unfold Cli.step. simpl. by rewrite Hexec, Hscript.
Qed.

Lemma cli_rejects_every_invocation_witness :
  Cli.main replace_diff suffix_output
    (Cli.process_argv "/usr/bin/node" "/usr/lib/node_modules/nano-sync/cli.js"
       ["filter.txt"; "-o"; "out"])
    "k3v9" "q0a7" (saved "filter.txt" "a" empty_disk)
    = Cli.mkProcess 1 ["Missing flag"] None (saved "filter.txt" "a" empty_disk).
Proof.
  apply (cli_rejects_every_invocation replace_diff suffix_output
           "/usr/bin/node" "/usr/lib/node_modules/nano-sync/cli.js"
           ["filter.txt"; "-o"; "out"] "k3v9" "q0a7"
           (saved "filter.txt" "a" empty_disk));
    reflexivity.
Defined.

(** ** The invariant of the version counters *)

Section Invariant.

Variable createPatch : string → string → string.
Variable default_output : string → string.

Lemma ezPatch_ok_args (filter : string) (output config : option string)
    (r1 r2 : string) (d d' : Disk) (o : outcome) :
  ezPatch createPatch default_output filter output config r1 r2 d = Ok o d' →
  truthy filter = true ∧
  truthy (default (default_output filter) output) = true.
Proof.
  unfold ezPatch, assert, throw. unfold mbind, M_bind, mret, M_ret.
  destruct (truthy filter); simpl; [|done].
  by destruct (truthy (default (default_output filter) output)).
Qed.

Lemma mainConfig_valid (cfg : string) (d : Disk) (m : gmap string ConfigEntry) :
  disk_valid d →
  mainConfig_of cfg d = Some m →
  map_Forall (λ _ e, entry_valid e) m.
Proof.
  intros [_ Hcfg]. unfold mainConfig_of.
  destruct (config_files d !! cfg) as [[| |m']|] eqn:E;
    intros ?; simplify_eq; try apply map_Forall_empty.
  by apply (Hcfg cfg (ConfigObject m)).
Qed.

Lemma ezPatch_valid (filter : string) (output config : option string)
    (r1 r2 : string) (d d' : Disk) (o : outcome) :
  disk_valid d →
  ezPatch createPatch default_output filter output config r1 r2 d = Ok o d' →
  disk_valid d'.
Proof.
  intros Hd H.
  destruct (ezPatch_ok_args _ _ _ _ _ _ _ _ H) as [Hf Ho].
  rewrite ezPatch_defaults in H.
  apply (ezPatch_inv createPatch default_output _ _ _ Hf Ho) in H
    as (m & fc & Hm & Hent & Hcase).
  pose proof (mainConfig_valid _ _ _ Hd Hm) as Hmv.
  assert (Hfc : -1 ≤ lastVersion fc).
  { destruct Hent as [Hent | [_ ->]]; [|done].
    apply Hmv in Hent. simpl in Hent. lia. }
  destruct Hd as [Hmeta Hcfg].
  destruct Hcase as [(-> & f & s & _ & ->) |
                     [(-> & f & c & l & oldf & newf & Hlast & Hml & _ & ->) |
                      (-> & [f Hlast] & ->)]];
    split; simpl.
  - apply map_Forall_insert_2; [simpl; lia | done].
  - apply map_Forall_insert_2; [|done].
    apply map_Forall_insert_2; [simpl; lia | done].
  - apply map_Forall_insert_2; [|done].
    apply Hmeta in Hml. simpl in *. lia.
  - apply map_Forall_insert_2; [|done].
    apply map_Forall_insert_2; [|done].
    apply Hmeta in Hml. simpl in *. lia.
  - done.
  - apply map_Forall_insert_2; [|done].
    apply map_Forall_insert_2; [|done].
    destruct Hent as [Hent | [_ ->]]; [|done].
    by apply Hmv in Hent.
Qed.

Lemma reachable_valid (d : Disk) :
  reachable createPatch default_output d → disk_valid d.
Proof.
  induction 1 as [|d p s _ IH|d filter output config r1 r2 o d' _ IH H].
  - split; apply map_Forall_empty.
  - exact IH.
  - by eapply ezPatch_valid.
Qed.

End Invariant.

(** C9.  In every state that successful calls (for any filters and
    folders) and saves of filter files produce from an empty file system,
    every [meta.json] holds numbers with [latest >= checkpoint >= 0]; a
    call that checkpoints leaves [latest = checkpoint], and a call that
    patches keeps [checkpoint] and adds one to [latest]. *)
Theorem meta_counters_ordered (createPatch : string → string → string)
    (default_output : string → string) (d : Disk) :
  reachable createPatch default_output d →
  (∀ out mf, meta_files d !! out = Some mf →
     ∃ c l, mf = MetaObject (Some c) (Some l) ∧ 0 ≤ c ≤ l) ∧
  (∀ filter output config r1 r2 o d',
     ezPatch createPatch default_output filter output config r1 r2 d = Ok o d' →
     let out := default (default_output filter) output in
     (o = DidCheckpoint →
        ∃ v, meta_files d' !! out = Some (MetaObject (Some v) (Some v))) ∧
     (o = DidPatch →
        ∃ c l, meta_files d !! out = Some (MetaObject (Some c) (Some l)) ∧
               meta_files d' !! out = Some (MetaObject (Some c) (Some (l + 1))))).
Proof.
  intros Hreach. split.
  - intros out mf Hmf.
    apply reachable_valid in Hreach as [Hmeta _].
    apply Hmeta in Hmf. destruct mf as [| | |[c|] [l|]]; try done. eauto.
  - intros filter output config r1 r2 o d' H out.
    destruct (ezPatch_ok_args _ _ _ _ _ _ _ _ _ _ H) as [Hf Ho].
    rewrite ezPatch_defaults in H.
    apply (ezPatch_inv createPatch default_output _ _ _ Hf Ho) in H
      as (m & fc & _ & _ & Hcase).
    destruct Hcase as [(-> & f & s & _ & ->) |
                       [(-> & f & c & l & oldf & newf & _ & Hml & _ & ->) |
                        (-> & _ & ->)]];
      (split; [intros ? | intros ?]); try done; simpl.
    + eexists. by rewrite lookup_insert_eq.
    + exists c, l. split; [done|]. by rewrite lookup_insert_eq.
Qed.

Lemma meta_counters_ordered_witness :
  (∀ out mf, meta_files sample_disk !! out = Some mf →
     ∃ c l, mf = MetaObject (Some c) (Some l) ∧ 0 ≤ c ≤ l) ∧
  (∀ filter output config r1 r2 o d',
     ezPatch replace_diff suffix_output filter output config r1 r2 sample_disk
       = Ok o d' →
     let out := default (suffix_output filter) output in
     (o = DidCheckpoint →
        ∃ v, meta_files d' !! out = Some (MetaObject (Some v) (Some v))) ∧
     (o = DidPatch →
        ∃ c l, meta_files sample_disk !! out
                 = Some (MetaObject (Some c) (Some l)) ∧
               meta_files d' !! out = Some (MetaObject (Some c) (Some (l + 1))))).
Proof.
  apply (meta_counters_ordered replace_diff suffix_output sample_disk).
  apply (reach_call replace_diff suffix_output
           (saved "filter.txt" "a" empty_disk) "filter.txt"
           (Some "out") (Some "cfg") "k3v9" "q0a7" DidCheckpoint).
  - apply reach_save, reach_empty.
  - vm_compute. reflexivity.
Defined.

(** ** Names of snapshots *)

Lemma string_app_assoc (a b c : string) : (a +:+ b) +:+ c = a +:+ b +:+ c.
Proof.
  induction a as [|x a IH]; [done|]. exact (f_equal (String x) IH).
Qed.

Lemma txt_not_patch (a b : string) : a +:+ ".txt" ≠ b +:+ ".patch".
Proof.
  revert b. induction a as [|x a IH]; intros [|y b] H; simpl in H.
  - discriminate H.
  - apply (f_equal String.length) in H. simpl in H.
    rewrite string_length_app in H. simpl in H. lia.
  - destruct a as [|z [|w a]]; simpl in H; try discriminate H.
    apply (f_equal String.length) in H. simpl in H.
    rewrite string_length_app in H. simpl in H. lia.
  - injection H as _ H. by apply (IH b).
Qed.

Section Private.

Variables output config : string.

Lemma private_paths (f : string) :
  private_snapshot output config f →
  Resolved config f ≠ Resolved output "checkpoint.txt" ∧
  ∀ k, Resolved config f ≠ Resolved output (patch_name k).
Proof.
  intros Hpriv. split; [|intros k]; intros [= Hcfg Hf];
    destruct Hpriv as [Hne | [Hck Hpatch]]; try done.
  by apply (Hpatch k).
Qed.

(** A generated snapshot name can only collide with [checkpoint.txt]. *)
Lemma generated_private (r1 r2 : string) :
  config ≠ output ∨ r1 +:+ r2 ≠ "checkpoint" →
  private_snapshot output config (r1 +:+ r2 +:+ ".txt").
Proof.
  intros [Hne | Hne]; [by left | right]. split.
  - intros H. apply Hne.
    apply (string_app_inv_tail _ "checkpoint" ".txt").
    by rewrite string_app_assoc.
  - intros k H. unfold patch_name in H.
    rewrite <- string_app_assoc in H. by apply txt_not_patch in H.
Qed.

End Private.

(** ** Histories that the tool alone has written *)

Section History.

Variable createPatch : string → string → string.
Variable default_output : string → string.
Variable applyPatch : string → string → string.
Variables filter output config : string.

Local Abbreviation build1 :=
  (build createPatch default_output filter output config).
Local Abbreviation run1 :=
  (run createPatch default_output filter output config).
Local Abbreviation checkpoint_at := (checkpointed filter output config).
Local Abbreviation patch_at := (patched createPatch filter output config).
Local Abbreviation persist_at := (persisted filter config).
Local Abbreviation sync := (in_sync filter output config).
Local Abbreviation rebuild := (reconstruct applyPatch output).
Local Abbreviation replay := (apply_from applyPatch output).
Local Abbreviation private := (private_snapshot output config).

Local Abbreviation law := (patch_law createPatch applyPatch).

Hypothesis filter_ok : truthy filter = true.
Hypothesis output_ok : truthy output = true.

Lemma replay_ext (d d' : Disk) (n : nat) (k : Z) (acc : string) :
  (∀ j, k ≤ j < k + Z.of_nat n →
     text_files d' !! Resolved output (patch_name j)
     = text_files d !! Resolved output (patch_name j)) →
  replay d' k n acc = replay d k n acc.
Proof.
  revert k acc. induction n as [|n IH]; intros k acc Hext; [done|].
  simpl. rewrite Hext by lia.
  destruct (text_files d !! Resolved output (patch_name k)); [|done].
  apply IH. intros j Hj. apply Hext. lia.
Qed.

Lemma replay_snoc (d : Disk) (n : nat) (k : Z) (acc : string) :
  replay d k (S n) acc =
  match replay d k n acc with
  | Some a =>
    match text_files d !! Resolved output (patch_name (k + Z.of_nat n)) with
    | Some p => Some (applyPatch a p)
    | None => None
    end
  | None => None
  end.
Proof.
  revert k acc. induction n as [|n IH]; intros k acc.
  - simpl. by rewrite Z.add_0_r.
  - change (replay d k (S (S n)) acc) with
      (match text_files d !! Resolved output (patch_name k) with
       | Some p => replay d (k + 1) (S n) (applyPatch acc p)
       | None => None
       end).
    change (replay d k (S n) acc) with
      (match text_files d !! Resolved output (patch_name k) with
       | Some p => replay d (k + 1) n (applyPatch acc p)
       | None => None
       end).
    destruct (text_files d !! Resolved output (patch_name k)); [|done].
    rewrite IH. by replace (k + 1 + Z.of_nat n) with (k + Z.of_nat (S n)) by lia.
Qed.

Lemma rebuild_checkpoint_at (d : Disk) (m : gmap string ConfigEntry)
    (f : string) (v : Z) (s : string) :
  rebuild (checkpoint_at d m f v s) = Some s.
Proof.
  unfold reconstruct. simpl. rewrite lookup_insert_eq.
  rewrite lookup_insert. case_decide.
  - by rewrite Z.sub_diag.
  - rewrite lookup_insert_eq. by rewrite Z.sub_diag.
Qed.

Lemma rebuild_persist_at (d : Disk) (m : gmap string ConfigEntry)
    (fc : FilterConfig) (s' : string) :
  rebuild (persist_at (saved filter s' d) m fc) = rebuild d.
Proof.
  unfold reconstruct. simpl.
  destruct (meta_files d !! output) as [[| | |[c|] [l|]]|]; try done.
  rewrite lookup_insert_ne by done.
  destruct (text_files d !! Resolved output "checkpoint.txt"); [|done].
  apply replay_ext. intros j _. simpl. by rewrite lookup_insert_ne.
Qed.

Lemma rebuild_patch_at (d : Disk) (m : gmap string ConfigEntry)
    (f : string) (c l : Z) (s newf : string) :
  law →
  private f →
  meta_files d !! output = Some (MetaObject (Some c) (Some l)) →
  c ≤ l →
  rebuild d = Some s →
  rebuild (patch_at (saved filter newf d) m f c l s newf) = Some newf.
Proof.
  intros Hlaw [Hck Hpatch]%private_paths Hmeta Hcl.
  unfold reconstruct. rewrite Hmeta. simpl. rewrite lookup_insert_eq.
  rewrite (lookup_insert_ne _ (Resolved config f)) by done.
  rewrite lookup_insert_ne
    by (intros [= H]; by apply patch_name_not_checkpoint in H).
  rewrite lookup_insert_ne by done.
  destruct (text_files d !! Resolved output "checkpoint.txt") as [base|];
    [|done].
  intros Hold.
  replace (Z.to_nat (l + 1 - c)) with (S (Z.to_nat (l - c))) by lia.
  rewrite replay_snoc.
  rewrite (replay_ext d).
  - rewrite Hold. simpl.
    replace (1 + Z.of_nat (Z.to_nat (l - c))) with (l + 1 - c) by lia.
    rewrite lookup_insert_ne by apply Hpatch.
    rewrite lookup_insert_eq. by rewrite Hlaw.
  - intros j Hj. simpl.
    rewrite lookup_insert_ne by apply Hpatch.
    rewrite lookup_insert_ne
      by (intros [= H]; apply patch_name_inj in H; lia).
    by rewrite lookup_insert_ne.
Qed.

(** One call, with the counters, the snapshot and the replay of the
    output folder before and after. *)
Lemma build_tracked (call : Call) (d : Disk) (f : string) (c l : Z)
    (s : string) :
  sync f c l s d →
  0 ≤ c ≤ l →
  ∃ o d' c' l' s',
    build1 call d = Ok o d' ∧
    l' = (if decide (o = DidNothing) then l else l + 1) ∧
    s' = (if decide (o = DidNothing) then s else content call) ∧
    sync f c' l' s' d' ∧
    0 ≤ c' ≤ l' ∧
    (law → private f → rebuild d = Some s → rebuild d' = Some s').
Proof.
  intros Hsync Hcl.
  destruct (build_sync createPatch default_output _ _ _ filter_ok output_ok
              call d f c l s Hsync) as (m & _ & Hb).
  cbv zeta in Hb. repeat case_decide.
  - subst s. eexists DidNothing, _, c, _, _. split; [exact Hb|].
    split; [done|]. split; [done|]. simpl.
    split; [by apply sync_persist_at|]. split; [done|].
    intros _ _ Hold. by rewrite rebuild_persist_at.
  - eexists DidPatch, _, c, _, _. split; [exact Hb|].
    split; [done|]. split; [done|]. simpl.
    split; [apply sync_patch_at|]. split; [lia|].
    intros Hlaw Hpriv Hold. apply rebuild_patch_at; try done; [|lia].
    apply Hsync.
  - eexists DidCheckpoint, _, (l + 1), _, _. split; [exact Hb|].
    split; [done|]. split; [done|]. simpl.
    split; [apply sync_checkpoint_at|]. split; [lia|].
    intros _ _ _. apply rebuild_checkpoint_at.
Qed.

Lemma run_tracked (cs : list Call) (d : Disk) (f : string) (c l : Z)
    (s : string) :
  sync f c l s d →
  0 ≤ c ≤ l →
  ∃ os d' c' l' s',
    run1 cs d = Ok os d' ∧
    sync f c' l' s' d' ∧
    0 ≤ c' ≤ l' ∧
    last_produced cs os (Some s) = Some s' ∧
    (law → private f → rebuild d = Some s → rebuild d' = Some s').
Proof.
  revert d c l s. induction cs as [|call cs IH]; intros d c l s Hsync Hcl.
  - by exists [], d, c, l, s.
  - destruct (build_tracked call d f c l s Hsync Hcl)
      as (o & d1 & c1 & l1 & s1 & Hb & Hl1 & Hs1 & Hsync1 & Hcl1 & Hre1).
    destruct (IH _ _ _ _ Hsync1 Hcl1)
      as (os & d' & c' & l' & s' & Hrun & Hsync' & Hcl' & Hlast & Hre').
    exists (o :: os), d', c', l', s'.
    rewrite run_cons, Hb, Hrun. split; [done|]. split; [done|].
    split; [done|]. split.
    + simpl. rewrite <- Hlast, Hs1. by destruct (decide (o = DidNothing)).
    + intros Hlaw Hpriv Hold. by apply Hre', Hre1.
Qed.

(** The first build of a filter that has no entry yet. *)
Lemma build_fresh (call : Call) (d : Disk) (m : gmap string ConfigEntry) :
  mainConfig_of config d = Some m →
  m !! filter = None →
  ∃ d',
    build1 call d = Ok DidCheckpoint d' ∧
    sync (rand1 call +:+ rand2 call +:+ ".txt") 0 0 (content call) d' ∧
    rebuild d' = Some (content call).
Proof.
  intros Hm Hent. eexists. rewrite build_eq. split.
  - eapply (ezPatch_first createPatch default_output filter output config
              filter_ok output_ok _ _ _ m (-1) (content call)); eauto.
    simpl. by rewrite lookup_insert_eq.
  - split; [apply sync_checkpoint_at | apply rebuild_checkpoint_at].
Qed.

End History.

(** ** Sessions from the first build *)

Lemma strip_prefix_app (a b : string) : strip_prefix a (a +:+ b) = Some b.
Proof.
  induction a as [|x a IH]; [done|].
  change (strip_prefix (String x a) (String x a +:+ b))
    with (if Ascii.eqb x x then strip_prefix a (a +:+ b) else None).
  by rewrite Ascii.eqb_refl.
Qed.

Lemma prefix_patch_law : patch_law prefix_diff prefix_apply.
Proof.
  intros a b. unfold prefix_apply, prefix_diff. by rewrite strip_prefix_app.
Qed.

(** C2 (as amended).  Take any session on one filter that starts with its
    first build, uses the same output folder and the same config folder in
    every call, and in which only the tool writes the two folders, with a
    diff library that satisfies [apply(old, diff(old, new)) = new], a
    snapshot file that is not [checkpoint.txt] of the output folder, and
    keys of [config.json] that are ordinary property names.  Every call
    returns normally, and afterwards [checkpoint.txt] followed by
    [1.patch], [2.patch], ... up to [latest - checkpoint], applied left to
    right, is exactly the text that was passed to the call that produced
    the latest version. *)
Theorem replay_reproduces_content (createPatch : string → string → string)
    (default_output : string → string) (applyPatch : string → string → string)
    (filter output config : string) (c0 : Call) (cs : list Call) (d0 : Disk)
    (m : gmap string ConfigEntry) :
  patch_law createPatch applyPatch →
  truthy filter = true →
  truthy output = true →
  mainConfig_of config d0 = Some m →
  m !! filter = None →
  ordinary_key filter →
  ordinary_config m →
  config ≠ output ∨ rand1 c0 +:+ rand2 c0 ≠ "checkpoint" →
  ∃ os d s,
    run createPatch default_output filter output config (c0 :: cs) d0 = Ok os d ∧
    last_produced (c0 :: cs) os None = Some s ∧
    reconstruct applyPatch output d = Some s.
Proof.
  intros Hlaw Hf Ho Hm Hent _ _ Hpriv.
  destruct (build_fresh createPatch default_output applyPatch filter output
              config Hf Ho c0 d0 m Hm Hent) as (d1 & Hb & Hsync & Hre).
  destruct (run_tracked createPatch default_output applyPatch filter output
              config Hf Ho cs d1 _ 0 0 _ Hsync ltac:(lia))
    as (os & d & c & l & s & Hrun & _ & _ & Hlast & Hre').
  exists (DidCheckpoint :: os), d, s.
  rewrite run_cons, Hb, Hrun. split; [done|]. split; [exact Hlast|].
  apply Hre'; [done | | done]. by apply generated_private.
Qed.

Lemma replay_reproduces_content_witness :
  ∃ os d s,
    run prefix_diff suffix_output "filter.txt" "out" "cfg"
      (sample_call "a" :: eleven_calls) empty_disk = Ok os d ∧
    last_produced (sample_call "a" :: eleven_calls) os None = Some s ∧
    reconstruct prefix_apply "out" d = Some s.
Proof.
  apply (replay_reproduces_content prefix_diff suffix_output prefix_apply
           "filter.txt" "out" "cfg" (sample_call "a") eleven_calls
           empty_disk ∅).
  - exact prefix_patch_law.
  - reflexivity.
  - reflexivity.
  - reflexivity.
  - reflexivity.
  - split; discriminate.
  - reflexivity.
  - left. discriminate.
Defined.

(** C2 (as stated) fails when the calls on a filter do not all use the
    same output folder.  With a diff library that satisfies the law, six
    calls without any tampering, texts ["a"], ["b"] into folder ["o1"],
    then ["c"], ["d"], ["e"] into ["o2"], then ["f"] into ["o1"], all
    return; the last one is a patch against the cached snapshot ["e"], so
    folder ["o1"] ends with [latest - checkpoint = 2], and its
    [checkpoint.txt] followed by [1.patch] and [2.patch] yields ["b"], not
    the text ["f"] of the call that produced that version. *)
Lemma second_folder_breaks_replay :
  patch_law prefix_diff prefix_apply ∧
  returned (run_in prefix_diff suffix_output "filter.txt" "cfg"
              two_folder_calls empty_disk)
    = Some [DidCheckpoint; DidPatch; DidCheckpoint; DidPatch; DidPatch;
            DidPatch] ∧
  meta_of "o1"
    (final (run_in prefix_diff suffix_output "filter.txt" "cfg"
              two_folder_calls empty_disk))
    = Some (MetaObject (Some 0) (Some 2)) ∧
  reconstruct prefix_apply "o1"
    (final (run_in prefix_diff suffix_output "filter.txt" "cfg"
              two_folder_calls empty_disk))
    = Some "b" ∧
  Some "b" ≠ Some "f".
Proof.
  split; [exact prefix_patch_law|].
  repeat split; try (vm_compute; reflexivity). discriminate.
Qed.

(** C8 (as amended).  In a session on one filter that starts with its
    first build, uses the same output folder and the same config folder in
    every call, and in which only the tool writes the two folders (so
    neither [meta.json] nor [config.json] is modified between calls),
    with keys of [config.json] that are ordinary property names, every
    call returns normally; after the calls so far [lastVersion] is a
    non-negative integer, and one more call adds exactly one to it when it
    performs a checkpoint or a patch and leaves it as it is otherwise. *)
Theorem lastVersion_counts_versions (createPatch : string → string → string)
    (default_output : string → string) (filter output config : string)
    (c0 : Call) (cs : list Call) (call : Call) (d0 : Disk)
    (m : gmap string ConfigEntry) :
  truthy filter = true →
  truthy output = true →
  mainConfig_of config d0 = Some m →
  m !! filter = None →
  ordinary_key filter →
  ordinary_config m →
  ∃ os d v o d',
    run createPatch default_output filter output config (c0 :: cs) d0 = Ok os d ∧
    lastVersion_of filter config d = Some v ∧
    0 ≤ v ∧
    (cs = [] → v = 0) ∧
    build createPatch default_output filter output config call d = Ok o d' ∧
    lastVersion_of filter config d'
      = Some (if decide (o = DidNothing) then v else v + 1).
Proof.
  intros Hf Ho Hm Hent _ _.
  destruct (build_fresh createPatch default_output (λ a _, a) filter output
              config Hf Ho c0 d0 m Hm Hent) as (d1 & Hb & Hsync & _).
  destruct (run_tracked createPatch default_output (λ a _, a) filter output
              config Hf Ho cs d1 _ 0 0 _ Hsync ltac:(lia))
    as (os & d & c & l & s & Hrun & Hsync' & Hcl & _ & _).
  destruct (build_tracked createPatch default_output (λ a _, a) filter output
              config Hf Ho call d _ c l s Hsync' Hcl)
    as (o & d' & c' & l' & s' & Hb' & -> & _ & Hsync'' & _ & _).
  exists (DidCheckpoint :: os), d, l, o, d'.
  rewrite run_cons, Hb, Hrun. split; [done|].
  destruct Hsync' as (He & _ & _). destruct Hsync'' as (He' & _ & _).
  unfold lastVersion_of. rewrite He, He'. simpl.
  repeat split; try done; try lia.
  intros ->. simpl in Hrun. injection Hrun as _ <-.
  destruct Hsync as (He1 & _ & _). rewrite He1 in He. by injection He.
Qed.

Lemma lastVersion_counts_versions_witness :
  ∃ os d v o d',
    run replace_diff suffix_output "filter.txt" "out" "cfg"
      (sample_call "a" :: eleven_calls) empty_disk = Ok os d ∧
    lastVersion_of "filter.txt" "cfg" d = Some v ∧
    0 ≤ v ∧
    (eleven_calls = [] → v = 0) ∧
    build replace_diff suffix_output "filter.txt" "out" "cfg"
      (sample_call "m") d = Ok o d' ∧
    lastVersion_of "filter.txt" "cfg" d'
      = Some (if decide (o = DidNothing) then v else v + 1).
Proof.
  apply (lastVersion_counts_versions replace_diff suffix_output
           "filter.txt" "out" "cfg" (sample_call "a") eleven_calls
           (sample_call "m") empty_disk ∅).
  - reflexivity.
  - reflexivity.
  - reflexivity.
  - reflexivity.
  - split; discriminate.
  - reflexivity.
Defined.

(** C8 (as stated) fails in two ways.  When [meta.json] was edited
    between calls to [{"checkpoint":0,"latest":-5}], the next call is a
    patch and takes [lastVersion] from [meta.latest]: it goes from 0 to
    -4, which is negative, lower than before, and not one more.  And with
    no file edited at all, when the calls on the filter change output
    folder (two into ["o1"], three into ["o2"], one into ["o1"] again),
    the last call is a patch on the [meta.json] of ["o1"], whose [latest]
    is 1: [lastVersion] goes from 4 to 2. *)
Lemma lastVersion_can_decrease :
  (lastVersion_of "filter.txt" "cfg" sample_disk_edited_meta = Some 0 ∧
   returned (build replace_diff suffix_output "filter.txt" "out" "cfg"
               (sample_call "b") sample_disk_edited_meta)
     = Some DidPatch ∧
   lastVersion_of "filter.txt" "cfg"
     (final (build replace_diff suffix_output "filter.txt" "out" "cfg"
               (sample_call "b") sample_disk_edited_meta))
     = Some (-4)) ∧
  (lastVersion_of "filter.txt" "cfg"
     (final (run_in replace_diff suffix_output "filter.txt" "cfg"
               (take 5 two_folder_calls) empty_disk))
     = Some 4 ∧
   returned (run_in replace_diff suffix_output "filter.txt" "cfg"
               two_folder_calls empty_disk)
     = Some [DidCheckpoint; DidPatch; DidCheckpoint; DidPatch; DidPatch;
             DidPatch] ∧
   lastVersion_of "filter.txt" "cfg"
     (final (run_in replace_diff suffix_output "filter.txt" "cfg"
               two_folder_calls empty_disk))
     = Some 2).
Proof. repeat split; vm_compute; reflexivity. Qed.

(** C10 (the code departs from it).  An empty filter is built into
    folder ["o1"] and then into folder ["o2"]; nothing is tampered with.
    The third call, into ["o1"] again, finds a [meta.json] and a cached
    snapshot that both load, but the snapshot is the empty text, so line
    115 skips both branches: the call returns normally and persists
    [config.json] with [lastVersion = 1] while the [meta.json] of its
    output folder still has [latest = 0]. *)
Theorem skipped_call_leaves_stores_apart :
  returned (run_in replace_diff suffix_output "filter.txt" "cfg"
              empty_filter_calls empty_disk)
    = Some [DidCheckpoint; DidCheckpoint; DidNothing] ∧
  lastVersion_of "filter.txt" "cfg"
    (final (run_in replace_diff suffix_output "filter.txt" "cfg"
              empty_filter_calls empty_disk))
    = Some 1 ∧
  meta_of "o1"
    (final (run_in replace_diff suffix_output "filter.txt" "cfg"
              empty_filter_calls empty_disk))
    = Some (MetaObject (Some 0) (Some 0)).
Proof. repeat split; vm_compute; reflexivity. Qed.

(** X17.  In a session on one filter that starts with its first build,
    uses the same output folder and the same config folder in every call,
    and in which only the tool writes the two folders, with keys of
    [config.json] that are ordinary property names, every call returns
    normally, and after it the [lastVersion] recorded for the filter in
    [config.json] equals [latest] in the [meta.json] of the output
    folder, also after a call that was skipped. *)
Theorem config_agrees_with_meta (createPatch : string → string → string)
    (default_output : string → string) (filter output config : string)
    (c0 : Call) (cs : list Call) (d0 : Disk) (m : gmap string ConfigEntry) :
  truthy filter = true →
  truthy output = true →
  mainConfig_of config d0 = Some m →
  m !! filter = None →
  ordinary_key filter →
  ordinary_config m →
  ∃ os d c l,
    run createPatch default_output filter output config (c0 :: cs) d0 = Ok os d ∧
    lastVersion_of filter config d = Some l ∧
    meta_of output d = Some (MetaObject (Some c) (Some l)).
Proof.
  intros Hf Ho Hm Hent _ _.
  destruct (build_fresh createPatch default_output (λ a _, a) filter output
              config Hf Ho c0 d0 m Hm Hent) as (d1 & Hb & Hsync & _).
  destruct (run_tracked createPatch default_output (λ a _, a) filter output
              config Hf Ho cs d1 _ 0 0 _ Hsync ltac:(lia))
    as (os & d & c & l & s & Hrun & (He & Hmeta & _) & _ & _ & _).
  exists (DidCheckpoint :: os), d, c, l.
  rewrite run_cons, Hb, Hrun. split; [done|]. split; [|done].
  unfold lastVersion_of. by rewrite He.
Qed.

Lemma config_agrees_with_meta_witness :
  ∃ os d c l,
    run replace_diff suffix_output "filter.txt" "out" "cfg"
      (sample_call "a" :: eleven_calls) empty_disk = Ok os d ∧
    lastVersion_of "filter.txt" "cfg" d = Some l ∧
    meta_of "out" d = Some (MetaObject (Some c) (Some l)).
Proof.
  apply (config_agrees_with_meta replace_diff suffix_output
           "filter.txt" "out" "cfg" (sample_call "a") eleven_calls
           empty_disk ∅).
  - reflexivity.
  - reflexivity.
  - reflexivity.
  - reflexivity.
  - split; discriminate.
  - reflexivity.
Defined.

(** ** Numbering of patch files *)

Section Numbering.

Variable createPatch : string → string → string.
Variable default_output : string → string.
Variables filter output config : string.

Local Abbreviation build1 :=
  (build createPatch default_output filter output config).
Local Abbreviation run1 :=
  (run createPatch default_output filter output config).
Local Abbreviation patch_at := (patched createPatch filter output config).
Local Abbreviation sync := (in_sync filter output config).
Local Abbreviation private := (private_snapshot output config).

Hypothesis filter_ok : truthy filter = true.
Hypothesis output_ok : truthy output = true.





End Numbering.




(** * Further properties of the engine *)

(** ** Every way a call can end *)

Section Cases.

Variable createPatch : string → string → string.
Variable default_output : string → string.
Variables filter out cfg : string.

Local Abbreviation call :=
  (ezPatch createPatch default_output filter (Some out) (Some cfg)).
Local Abbreviation checkpoint_at := (checkpointed filter out cfg).
Local Abbreviation patch_at := (patched createPatch filter out cfg).
Local Abbreviation persist_at := (persisted filter cfg).
Local Abbreviation mainConfig := (mainConfig_of cfg).

Ltac unfold_call :=
  unfold ezPatch, gather, createCheckpoint, createPatchFiles,
    copyFile, try_catch, assert, throw;
  unfold mbind, M_bind, mret, M_ret, writeFile, writeMeta, writeConfig,
    readFile, readMeta; simpl.

(** A call that returns took one of five paths: first build, recovery
    from a broken history, rollover, patch, or the skip on an empty
    snapshot. *)
Lemma ezPatch_returns (r1 r2 : string) (d d' : Disk) (o : outcome) :
  call r1 r2 d = Ok o d' →
  ∃ m fc,
    mainConfig d = Some m ∧
    (m !! filter = Some (Entry fc) ∨
     (m !! filter = None ∧ fc = mkFilterConfig None (-1))) ∧
    ((lastFile fc = None ∧ o = DidCheckpoint ∧
      ∃ s, text_files d !! Given filter = Some s ∧
           d' = checkpoint_at d m (r1 +:+ r2 +:+ ".txt") (lastVersion fc + 1) s) ∨
     (∃ f s, lastFile fc = Some f ∧ o = DidCheckpoint ∧
        (meta_loads (meta_files d !! out) = false ∨
         text_files d !! Resolved cfg f = None) ∧
        text_files d !! Given filter = Some s ∧
        d' = checkpoint_at d m f (lastVersion fc + 1) s) ∨
     (∃ f c l oldf s, lastFile fc = Some f ∧ o = DidCheckpoint ∧
        meta_files d !! out = Some (MetaObject (Some c) (Some l)) ∧
        text_files d !! Resolved cfg f = Some oldf ∧ oldf ≠ "" ∧
        c + 10 < l ∧
        text_files d !! Given filter = Some s ∧
        d' = checkpoint_at d m f (lastVersion fc + 1) s) ∨
     (∃ f c l oldf newf, lastFile fc = Some f ∧ o = DidPatch ∧
        meta_files d !! out = Some (MetaObject (Some c) (Some l)) ∧
        text_files d !! Resolved cfg f = Some oldf ∧ oldf ≠ "" ∧
        l ≤ c + 10 ∧
        text_files d !! Given filter = Some newf ∧
        d' = patch_at d m f c l oldf newf) ∨
     (∃ f c l, lastFile fc = Some f ∧ o = DidNothing ∧
        meta_files d !! out = Some (MetaObject (Some c) (Some l)) ∧
        text_files d !! Resolved cfg f = Some "" ∧
        d' = persist_at d m fc)).
Proof.
  intros H.
  destruct (ezPatch_ok_args _ _ _ _ _ _ _ _ _ _ H) as [Hf Ho]. simpl in Ho.
  revert H. unfold_call. rewrite Hf, Ho. simpl.
  rewrite (readConfig_eq cfg). intros H.
  destruct (mainConfig d) as [m|] eqn:Hm; [|done]. simpl in H.
  exists m.
  destruct (m !! filter) as [[| |fc]|] eqn:Hent; simpl in H; try done;
    [exists fc | exists (mkFilterConfig None (-1))];
    (split; [done|]); (split; [by eauto|]).
  - destruct fc as [[f|] v]; simpl in H.
    + destruct (meta_files d !! out) as [[| | |[c|] [l|]]|] eqn:Hmeta;
        simpl in H;
        repeat (case_match; simplify_eq/=); try done.
      all: try (right; left; eexists _, _; repeat split; try done;
                try (by left); try (by right); by simplify_map_eq).
      * right; right; left. eexists _, _, _, _, _. repeat split; try done.
        -- by apply truthy_true.
        -- apply Z.ltb_lt. by rewrite <- Z.gtb_ltb.
        -- by simplify_map_eq.
      * right; right; right; left. eexists _, _, _, _, _.
        repeat split; try done.
        -- by apply truthy_true.
        -- apply Z.ltb_ge. by rewrite <- Z.gtb_ltb.
      * right; right; right; right. eexists _, _, _. repeat split; try done.
        match goal with
        | Ht : truthy ?s = false |- _ =>
          unfold truthy in Ht; destruct (String.eqb_spec s ""); [by subst|done]
        end.
    + repeat (case_match; simplify_eq/=); try done.
      left. repeat split; try done. eexists. split; [done|].
      by simplify_map_eq.
  - repeat (case_match; simplify_eq/=); try done.
    left. repeat split; try done. eexists. split; [done|].
    by simplify_map_eq.
Qed.

End Cases.

Section Failures.

Variable createPatch : string → string → string.
Variable default_output : string → string.
Variables filter out cfg : string.

Local Abbreviation call :=
  (ezPatch createPatch default_output filter (Some out) (Some cfg)).
Local Abbreviation mainConfig := (mainConfig_of cfg).

(** The [SyntaxError] of [JSON.parse] is raised inside the two [try]
    blocks only, and both swallow it. *)
Lemma ezPatch_throw_kind (r1 r2 : string) (d d' : Disk) (e : error) :
  call r1 r2 d = Throw e d' → e ≠ SyntaxError.
Proof.
  unfold ezPatch, gather, createCheckpoint, createPatchFiles,
    copyFile, try_catch, assert, throw.
  unfold mbind, M_bind, mret, M_ret, writeFile, writeMeta, writeConfig,
    readFile, readMeta. simpl.
  destruct (truthy filter) eqn:Hf; simpl; [|by intros [= <- <-]].
  destruct (truthy out) eqn:Ho; simpl; [|by intros [= <- <-]].
  rewrite (readConfig_eq cfg).
  destruct (mainConfig d) as [m|] eqn:Hm; simpl; [|by intros [= <- <-]].
  destruct (m !! filter) as [[| |[[f|] v]]|] eqn:Hent; simpl;
    try (by intros [= <- <-]).
  - destruct (meta_files d !! out) as [[| | |[c|] [l|]]|] eqn:Hmeta; simpl;
      intros H; repeat (case_match; simplify_eq/=); done.
  - intros H; repeat (case_match; simplify_eq/=); done.
  - intros H; repeat (case_match; simplify_eq/=); done.
Qed.

End Failures.

(** X1.  Malformed JSON never surfaces: whatever text [config.json] and
    [meta.json] hold, a call does not throw a JSON syntax error.  An
    unparsable [config.json] is read as the empty config, and an
    unparsable [meta.json] is handled by the recovery checkpoint. *)
Theorem json_errors_never_surface (createPatch : string → string → string)
    (default_output : string → string) (filter : string)
    (output config : option string) (r1 r2 : string) (d d' : Disk) :
  ezPatch createPatch default_output filter output config r1 r2 d
    ≠ Throw SyntaxError d'.
Proof.
  intros H. rewrite ezPatch_defaults in H.
  by apply ezPatch_throw_kind in H.
Qed.

(** ** What a call touches *)

Lemma entry_of_mainConfig (filter cfg : string) (d : Disk)
    (m : gmap string ConfigEntry) :
  mainConfig_of cfg d = Some m → entry_of filter cfg d = m !! filter.
Proof.
  unfold mainConfig_of, entry_of.
  destruct (config_files d !! cfg) as [[| |m']|]; intros [= <-]; done.
Qed.

Ltac ezPatch_cases H :=
  let m := fresh "m" in
  let fc := fresh "fc" in
  let Hm := fresh "Hm" in
  let Hent := fresh "Hent" in
  rewrite ezPatch_defaults in H;
  apply ezPatch_returns in H as (m & fc & Hm & Hent & H);
  destruct H as
    [(Hlast & -> & s & Hs & ->) |
     [(f & s & Hlast & -> & Hbad & Hs & ->) |
      [(f & c & l & oldf & s & Hlast & -> & Hmeta & Hsnap & Hne & Hspan & Hs & ->) |
       [(f & c & l & oldf & newf & Hlast & -> & Hmeta & Hsnap & Hne & Hspan & Hs & ->) |
        (f & c & l & Hlast & -> & Hmeta & Hsnap & ->)]]]].

(** X3.  A call for one filter leaves the [meta.json] of every other
    output folder and the [config.json] of every other config folder as
    they were.  When [config.json] held an object, the entries of all
    other filters are kept; when it was missing or unparsable, it is
    replaced by an object that holds this filter's entry alone. *)
Theorem other_metadata_untouched (createPatch : string → string → string)
    (default_output : string → string) (filter : string)
    (output config : option string) (r1 r2 : string) (d d' : Disk)
    (o : outcome) :
  let out := default (default_output filter) output in
  let cfg := default "nano-sync-config" config in
  ezPatch createPatch default_output filter output config r1 r2 d = Ok o d' →
  (∀ out', out' ≠ out → meta_files d' !! out' = meta_files d !! out') ∧
  (∀ cfg', cfg' ≠ cfg → config_files d' !! cfg' = config_files d !! cfg') ∧
  (∀ m, config_files d !! cfg = Some (ConfigObject m) →
     ∃ m', config_files d' !! cfg = Some (ConfigObject m') ∧
           ∀ k, k ≠ filter → m' !! k = m !! k) ∧
  (config_files d !! cfg = None ∨
   config_files d !! cfg = Some ConfigUnparsable →
     ∃ e, config_files d' !! cfg = Some (ConfigObject {[filter := e]})).
Proof.
  intros out cfg H.
  assert (Hobj : ∀ m m0, mainConfig_of cfg d = Some m →
            config_files d !! cfg = Some (ConfigObject m0) → m = m0).
  { unfold mainConfig_of. intros m m0 Hm Hc. rewrite Hc in Hm. by injection Hm. }
  assert (Hnew : ∀ m, mainConfig_of cfg d = Some m →
            config_files d !! cfg = None ∨
            config_files d !! cfg = Some ConfigUnparsable → m = ∅).
  { unfold mainConfig_of. intros m Hm [Hc|Hc]; rewrite Hc in Hm;
      by injection Hm. }
  ezPatch_cases H; fold out cfg; simpl.
  all: split; [intros out' Hne'; by rewrite ?lookup_insert_ne|].
  all: split; [intros cfg' Hne'; by rewrite lookup_insert_ne|].
  all: split;
    [ intros m0 Hc; rewrite <- (Hobj _ _ Hm Hc);
      eexists; rewrite lookup_insert_eq; split; [done|];
      intros k Hk; by rewrite lookup_insert_ne
    | intros Hc; rewrite (Hnew _ Hm Hc), insert_empty, lookup_insert_eq;
      by eexists ].
Qed.

Lemma other_metadata_untouched_witness :
  (∀ out', out' ≠ "out" →
     meta_files sample_disk !! out'
     = meta_files (saved "filter.txt" "a" empty_disk) !! out') ∧
  (∀ cfg', cfg' ≠ "cfg" →
     config_files sample_disk !! cfg'
     = config_files (saved "filter.txt" "a" empty_disk) !! cfg') ∧
  (∀ m, config_files (saved "filter.txt" "a" empty_disk) !! "cfg"
          = Some (ConfigObject m) →
     ∃ m', config_files sample_disk !! "cfg" = Some (ConfigObject m') ∧
           ∀ k, k ≠ "filter.txt" → m' !! k = m !! k) ∧
  (config_files (saved "filter.txt" "a" empty_disk) !! "cfg" = None ∨
   config_files (saved "filter.txt" "a" empty_disk) !! "cfg"
     = Some ConfigUnparsable →
     ∃ e, config_files sample_disk !! "cfg"
            = Some (ConfigObject {["filter.txt" := e]})).
Proof.
  apply (other_metadata_untouched replace_diff suffix_output "filter.txt"
           (Some "out") (Some "cfg") "k3v9" "q0a7"
           (saved "filter.txt" "a" empty_disk) sample_disk DidCheckpoint).
  vm_compute. reflexivity.
Defined.

(** X4.  What a call can change among the text files, with distinct
    output and config folders: it removes no file; in the output folder,
    [meta.json] aside, it changes no file other than [checkpoint.txt] and
    the numbered patch files; in the config folder, [config.json] aside,
    it changes no file other than the snapshot named by the filter's
    entry. *)
Theorem text_files_touched (createPatch : string → string → string)
    (default_output : string → string) (filter : string)
    (output config : option string) (r1 r2 : string) (d d' : Disk)
    (o : outcome) :
  let out := default (default_output filter) output in
  let cfg := default "nano-sync-config" config in
  out ≠ cfg →
  ezPatch createPatch default_output filter output config r1 r2 d = Ok o d' →
  (∀ p, is_Some (text_files d !! p) → is_Some (text_files d' !! p)) ∧
  (∀ name, name ≠ "meta.json" → name ≠ "checkpoint.txt" →
     (∀ k, name ≠ patch_name k) →
     text_files d' !! Resolved out name = text_files d !! Resolved out name) ∧
  (∀ name fc', name ≠ "config.json" →
     entry_of filter cfg d' = Some (Entry fc') →
     lastFile fc' ≠ Some name →
     text_files d' !! Resolved cfg name = text_files d !! Resolved cfg name).
Proof.
  intros out cfg Hdirs H.
  ezPatch_cases H; fold out cfg; fold out cfg in Hdirs; unfold entry_of; simpl;
    rewrite ?lookup_insert_eq.
  all: split;
    [intros p Hp; rewrite ?lookup_insert; repeat case_decide; by eauto|].
  all: split;
    [intros name _ Hck Hpatch;
     rewrite ?lookup_insert_ne; try done;
     intros [= Hx];
     first [ done | by apply (Hpatch _ (eq_sym Hx)) | by subst ]|].
  all: intros name fc' _ [= <-] Hname; simpl in Hname;
    rewrite ?lookup_insert_ne; try done;
    intros [= Hx]; first [ done | by subst ].
Qed.

Lemma text_files_touched_witness :
  (∀ p, is_Some (text_files (saved "filter.txt" "a" empty_disk) !! p) →
        is_Some (text_files sample_disk !! p)) ∧
  (∀ name, name ≠ "meta.json" → name ≠ "checkpoint.txt" →
     (∀ k, name ≠ patch_name k) →
     text_files sample_disk !! Resolved "out" name
     = text_files (saved "filter.txt" "a" empty_disk) !! Resolved "out" name) ∧
  (∀ name fc', name ≠ "config.json" →
     entry_of "filter.txt" "cfg" sample_disk = Some (Entry fc') →
     lastFile fc' ≠ Some name →
     text_files sample_disk !! Resolved "cfg" name
     = text_files (saved "filter.txt" "a" empty_disk) !! Resolved "cfg" name).
Proof.
  apply (text_files_touched replace_diff suffix_output "filter.txt"
           (Some "out") (Some "cfg") "k3v9" "q0a7"
           (saved "filter.txt" "a" empty_disk) sample_disk DidCheckpoint).
  - discriminate.
  - vm_compute. reflexivity.
Defined.

(** X5.  For a filter path other than [__proto__], and a [config.json]
    that is missing, unparsable or a JSON object: after a call that
    returns, [config.json] is a JSON object that holds a well-typed entry
    for the filter with a snapshot name.  The snapshot name is the one
    the entry already had; only when there was no entry, or its
    [lastFile] was [null], it is the freshly generated name ending in
    [.txt]. *)
Theorem filter_registered (createPatch : string → string → string)
    (default_output : string → string) (filter : string)
    (output config : option string) (r1 r2 : string) (d d' : Disk)
    (o : outcome) :
  let cfg := default "nano-sync-config" config in
  filter ≠ "__proto__" →
  ezPatch createPatch default_output filter output config r1 r2 d = Ok o d' →
  ∃ f v,
    entry_of filter cfg d' = Some (Entry (mkFilterConfig (Some f) v)) ∧
    match entry_of filter cfg d with
    | Some (Entry (mkFilterConfig (Some f0) _)) => f = f0
    | _ => f = r1 +:+ r2 +:+ ".txt"
    end.
Proof.
  intros cfg _ H.
  ezPatch_cases H; fold cfg; rewrite (entry_of_mainConfig _ _ _ _ Hm);
    unfold entry_of; simpl; rewrite !lookup_insert_eq.
  - eexists _, _. split; [done|].
    destruct Hent as [-> | [-> _]]; [|done]. by destruct fc as [[?|] ?].
  - eexists _, _. split; [done|].
    destruct Hent as [-> | [_ ->]]; [|done]. destruct fc as [[?|] ?]; by simplify_eq/=.
  - eexists _, _. split; [done|].
    destruct Hent as [-> | [_ ->]]; [|done]. destruct fc as [[?|] ?]; by simplify_eq/=.
  - eexists _, _. split; [done|].
    destruct Hent as [-> | [_ ->]]; [|done]. destruct fc as [[?|] ?]; by simplify_eq/=.
  - destruct fc as [[f0|] v]; simplify_eq/=.
    eexists _, _. split; [done|].
    by destruct Hent as [-> | [_ [=]]].
Qed.

Lemma filter_registered_witness :
  ∃ f v,
    entry_of "filter.txt" "cfg" sample_disk
      = Some (Entry (mkFilterConfig (Some f) v)) ∧
    match entry_of "filter.txt" "cfg" (saved "filter.txt" "a" empty_disk) with
    | Some (Entry (mkFilterConfig (Some f0) _)) => f = f0
    | _ => f = "k3v9" +:+ "q0a7" +:+ ".txt"
    end.
Proof.
  apply (filter_registered replace_diff suffix_output "filter.txt"
           (Some "out") (Some "cfg") "k3v9" "q0a7"
           (saved "filter.txt" "a" empty_disk) sample_disk DidCheckpoint).
  - discriminate.
  - vm_compute. reflexivity.
Defined.

(** X6.  After a call that checkpointed (first build, recovery or
    rollover), the output folder alone gives back the filter text: a
    consumer that reads [meta.json] and [checkpoint.txt] applies no patch
    at all, whatever patch files are lying in the folder and whatever the
    patch library does. *)
Theorem checkpoint_is_self_sufficient (createPatch : string → string → string)
    (default_output : string → string) (applyPatch : string → string → string)
    (filter : string) (output config : option string) (r1 r2 : string)
    (d d' : Disk) :
  let out := default (default_output filter) output in
  ezPatch createPatch default_output filter output config r1 r2 d
    = Ok DidCheckpoint d' →
  is_Some (text_files d !! Given filter) ∧
  reconstruct applyPatch out d' = text_files d !! Given filter.
Proof.
  intros out H. remember DidCheckpoint as o eqn:Ho.
  ezPatch_cases H; fold out; try done; rewrite Hs; (split; [by eexists|]);
    apply rebuild_checkpoint_at.
Qed.

Lemma checkpoint_is_self_sufficient_witness :
  is_Some (text_files (saved "filter.txt" "a" empty_disk) !! Given "filter.txt") ∧
  reconstruct replace_apply "out" sample_disk
    = text_files (saved "filter.txt" "a" empty_disk) !! Given "filter.txt".
Proof.
  apply (checkpoint_is_self_sufficient replace_diff suffix_output replace_apply
           "filter.txt" (Some "out") (Some "cfg") "k3v9" "q0a7"
           (saved "filter.txt" "a" empty_disk) sample_disk).
  vm_compute. reflexivity.
Defined.

(** X7.  A checkpoint does not clean up: with distinct folders, every
    numbered patch file that was in the output folder before a
    checkpointing call is still there afterwards with the same text, now
    orphaned. *)
Theorem checkpoint_keeps_old_patches (createPatch : string → string → string)
    (default_output : string → string) (filter : string)
    (output config : option string) (r1 r2 : string) (d d' : Disk) (k : Z) :
  let out := default (default_output filter) output in
  let cfg := default "nano-sync-config" config in
  out ≠ cfg →
  ezPatch createPatch default_output filter output config r1 r2 d
    = Ok DidCheckpoint d' →
  text_files d' !! Resolved out (patch_name k)
  = text_files d !! Resolved out (patch_name k).
Proof.
  intros out cfg Hdirs H. remember DidCheckpoint as o eqn:Ho.
  ezPatch_cases H; fold out cfg; try done; simpl.
  all: rewrite lookup_insert_ne by (intros [= ? ?]; done).
  all: rewrite lookup_insert_ne; [done|].
  all: intros [= Hx]; by apply (patch_name_not_checkpoint k).
Qed.

Lemma checkpoint_keeps_old_patches_witness :
  text_files sample_disk_rolled_over !! Resolved "out" (patch_name 5)
  = text_files (saved "filter.txt" "m" sample_disk_after_eleven)
      !! Resolved "out" (patch_name 5).
Proof.
  apply (checkpoint_keeps_old_patches replace_diff suffix_output "filter.txt"
           (Some "out") (Some "cfg") "k3v9" "q0a7"
           (saved "filter.txt" "m" sample_disk_after_eleven)
           sample_disk_rolled_over 5).
  - discriminate.
  - vm_compute. reflexivity.
Defined.

(** X8.  What a patching call does, on any state it accepts whose
    [meta.json] holds integer counters of magnitude at most 2^51 (also
    one edited by hand, with [latest] below [checkpoint] or apart from
    [lastVersion]): the patch is the diff from the cached snapshot to the
    current filter text, its file is numbered [latest + 1 - checkpoint]
    from the [meta.json] found, [latest] grows by one and [checkpoint] is
    kept, [lastVersion] becomes the new [latest] whatever it was, and the
    cached snapshot becomes the current text. *)
Theorem patch_call_effect (createPatch : string → string → string)
    (default_output : string → string) (filter : string)
    (output config : option string) (r1 r2 : string) (d d' : Disk) :
  let out := default (default_output filter) output in
  let cfg := default "nano-sync-config" config in
  meta_exact (meta_files d !! out) →
  ezPatch createPatch default_output filter output config r1 r2 d
    = Ok DidPatch d' →
  ∃ f v c l oldf newf,
    entry_of filter cfg d = Some (Entry (mkFilterConfig (Some f) v)) ∧
    meta_files d !! out = Some (MetaObject (Some c) (Some l)) ∧
    l ≤ c + 10 ∧
    text_files d !! Resolved cfg f = Some oldf ∧
    oldf ≠ "" ∧
    text_files d !! Given filter = Some newf ∧
    meta_files d' !! out = Some (MetaObject (Some c) (Some (l + 1))) ∧
    entry_of filter cfg d' = Some (Entry (mkFilterConfig (Some f) (l + 1))) ∧
    text_files d' !! Resolved cfg f = Some newf ∧
    (Resolved cfg f ≠ Resolved out (patch_name (l + 1 - c)) →
     text_files d' !! Resolved out (patch_name (l + 1 - c))
     = Some (createPatch oldf newf)).
Proof.
  intros out cfg _ H. remember DidPatch as o eqn:Ho.
  ezPatch_cases H; fold out cfg; try done.
  destruct Hent as [Hent | [_ ->]]; [|done].
  destruct fc as [[f0|] v]; simplify_eq/=.
  exists f, v, c, l, oldf, newf.
  rewrite (entry_of_mainConfig _ _ _ _ Hm).
  unfold entry_of. simpl. rewrite !lookup_insert_eq.
  repeat split; try done.
  intros Hx. rewrite lookup_insert_ne by done. by rewrite lookup_insert_eq.
Qed.

Lemma patch_call_effect_witness :
  ∃ f v c l oldf newf,
    entry_of "filter.txt" "cfg" sample_disk_edited_meta
      = Some (Entry (mkFilterConfig (Some f) v)) ∧
    meta_files sample_disk_edited_meta !! "out"
      = Some (MetaObject (Some c) (Some l)) ∧
    l ≤ c + 10 ∧
    text_files sample_disk_edited_meta !! Resolved "cfg" f = Some oldf ∧
    oldf ≠ "" ∧
    text_files sample_disk_edited_meta !! Given "filter.txt" = Some newf ∧
    meta_files sample_disk_patched_after_edit !! "out"
      = Some (MetaObject (Some c) (Some (l + 1))) ∧
    entry_of "filter.txt" "cfg" sample_disk_patched_after_edit
      = Some (Entry (mkFilterConfig (Some f) (l + 1))) ∧
    text_files sample_disk_patched_after_edit !! Resolved "cfg" f = Some newf ∧
    (Resolved "cfg" f ≠ Resolved "out" (patch_name (l + 1 - c)) →
     text_files sample_disk_patched_after_edit
       !! Resolved "out" (patch_name (l + 1 - c))
     = Some (replace_diff oldf newf)).
Proof.
  apply (patch_call_effect replace_diff suffix_output "filter.txt"
           (Some "out") (Some "cfg") "k3v9" "q0a7"
           sample_disk_edited_meta sample_disk_patched_after_edit).
  - vm_compute. repeat split; discriminate.
  - vm_compute. reflexivity.
Defined.

(** ** Further properties of sessions *)

Section SessionExtras.

Variable createPatch : string → string → string.
Variable default_output : string → string.
Variables filter output config : string.

Local Abbreviation build1 :=
  (build createPatch default_output filter output config).
Local Abbreviation run1 :=
  (run createPatch default_output filter output config).
Local Abbreviation sync := (in_sync filter output config).

Hypothesis filter_ok : truthy filter = true.
Hypothesis output_ok : truthy output = true.

Lemma run_span (cs : list Call) (d : Disk) (f : string) (c l : Z) (s : string) :
  sync f c l s d →
  0 ≤ l - c ≤ 11 →
  ∃ os d' c' l' s',
    run1 cs d = Ok os d' ∧ sync f c' l' s' d' ∧ 0 ≤ l' - c' ≤ 11.
Proof.
  revert d c l s. induction cs as [|call cs IH]; intros d c l s Hsync Hspan.
  - by exists [], d, c, l, s.
  - destruct (build_sync createPatch default_output _ _ _ filter_ok output_ok
                call d f c l s Hsync) as (m & _ & Hb).
    cbv zeta in Hb.
    assert (∃ o d1 c1 l1 s1,
              build1 call d = Ok o d1 ∧ sync f c1 l1 s1 d1 ∧ 0 ≤ l1 - c1 ≤ 11)
      as (o & d1 & c1 & l1 & s1 & Hb1 & Hsync1 & Hspan1).
    { repeat case_decide.
      - subst s. eexists _, _, c, l, "". split; [exact Hb|].
        split; [by apply sync_persist_at | done].
      - eexists _, _, c, (l + 1), _. split; [exact Hb|].
        split; [apply sync_patch_at | lia].
      - eexists _, _, (l + 1), (l + 1), _. split; [exact Hb|].
        split; [apply sync_checkpoint_at | lia]. }
    destruct (IH _ _ _ _ Hsync1 Hspan1)
      as (os & d' & c' & l' & s' & Hrun & Hsync' & Hspan').
    exists (o :: os), d', c', l', s'. by rewrite run_cons, Hb1, Hrun.
Qed.

End SessionExtras.

(** X9.  Once the cached snapshot of an intact history is the empty text,
    the filter is stuck: every later call, whatever text the filter has
    by then, returns normally without producing a version, and the
    counters, the cached snapshot and all files of the output folder stay
    as they are. *)
Theorem empty_snapshot_is_absorbing (createPatch : string → string → string)
    (default_output : string → string) (filter output config : string)
    (cs : list Call) (d : Disk) (f : string) (c l : Z) :
  truthy filter = true →
  truthy output = true →
  in_sync filter output config f c l "" d →
  ∃ d',
    run createPatch default_output filter output config cs d
      = Ok (replicate (length cs) DidNothing) d' ∧
    in_sync filter output config f c l "" d' ∧
    ∀ name, text_files d' !! Resolved output name
            = text_files d !! Resolved output name.
Proof.
  intros Hf Ho. revert d. induction cs as [|call cs IH]; intros d Hsync.
  - by exists d.
  - destruct (build_sync createPatch default_output _ _ _ Hf Ho
                call d f c l "" Hsync) as (m & _ & Hb).
    cbv zeta in Hb. rewrite decide_True in Hb by done.
    destruct (IH _ (sync_persist_at filter output config d m f c l ""
                      (content call) Hsync))
      as (d' & Hrun & Hsync' & Hframe).
    exists d'. rewrite run_cons, Hb, Hrun. split; [done|]. split; [done|].
    intros name. rewrite Hframe. simpl. by rewrite lookup_insert_ne.
Qed.

Lemma empty_snapshot_is_absorbing_witness :
  ∃ d',
    run replace_diff suffix_output "filter.txt" "out" "cfg" eleven_calls
      sample_disk_empty_filter
      = Ok (replicate (length eleven_calls) DidNothing) d' ∧
    in_sync "filter.txt" "out" "cfg" "k3v9q0a7.txt" 0 0 "" d' ∧
    ∀ name, text_files d' !! Resolved "out" name
            = text_files sample_disk_empty_filter !! Resolved "out" name.
Proof.
  apply (empty_snapshot_is_absorbing replace_diff suffix_output
           "filter.txt" "out" "cfg" eleven_calls sample_disk_empty_filter
           "k3v9q0a7.txt" 0 0).
  - reflexivity.
  - reflexivity.
  - repeat split; vm_compute; reflexivity.
Defined.

(** X10.  In a session on one filter that starts with its first build
    and in which only the tool writes the two folders, every call
    returns normally and the span [latest - checkpoint] recorded in
    [meta.json] is always between 0 and 11: a consumer never has to apply
    more than eleven patches. *)
Theorem span_at_most_eleven (createPatch : string → string → string)
    (default_output : string → string) (filter output config : string)
    (c0 : Call) (cs : list Call) (d0 : Disk) (m : gmap string ConfigEntry) :
  truthy filter = true →
  truthy output = true →
  mainConfig_of config d0 = Some m →
  m !! filter = None →
  ∃ os d c l,
    run createPatch default_output filter output config (c0 :: cs) d0 = Ok os d ∧
    meta_of output d = Some (MetaObject (Some c) (Some l)) ∧
    0 ≤ l - c ≤ 11.
Proof.
  intros Hf Ho Hm Hent.
  destruct (build_fresh createPatch default_output (λ a _, a) filter output
              config Hf Ho c0 d0 m Hm Hent) as (d1 & Hb & Hsync & _).
  destruct (run_span createPatch default_output filter output config Hf Ho
              cs d1 _ 0 0 _ Hsync ltac:(lia))
    as (os & d & c & l & s & Hrun & (_ & Hmeta & _) & Hspan).
  exists (DidCheckpoint :: os), d, c, l.
  by rewrite run_cons, Hb, Hrun.
Qed.

Lemma span_at_most_eleven_witness :
  ∃ os d c l,
    run replace_diff suffix_output "filter.txt" "out" "cfg"
      (sample_call "a" :: eleven_calls) empty_disk = Ok os d ∧
    meta_of "out" d = Some (MetaObject (Some c) (Some l)) ∧
    0 ≤ l - c ≤ 11.
Proof.
  apply (span_at_most_eleven replace_diff suffix_output
           "filter.txt" "out" "cfg" (sample_call "a") eleven_calls
           empty_disk ∅);
    reflexivity.
Defined.

(** X11.  On an intact history with a non-empty cached snapshot and a
    span within the threshold, a call made with unchanged filter text is
    not skipped: it is a patch, and [latest] and [lastVersion] both grow
    by one. *)
Theorem unchanged_text_consumes_a_version
    (createPatch : string → string → string)
    (default_output : string → string) (filter output config : string)
    (d : Disk) (f : string) (c l : Z) (s r1 r2 : string) :
  truthy filter = true →
  truthy output = true →
  in_sync filter output config f c l s d →
  s ≠ "" →
  l ≤ c + 10 →
  text_files d !! Given filter = Some s →
  ∃ d',
    ezPatch createPatch default_output filter (Some output) (Some config)
      r1 r2 d = Ok DidPatch d' ∧
    meta_of output d' = Some (MetaObject (Some c) (Some (l + 1))) ∧
    lastVersion_of filter config d' = Some (l + 1) ∧
    (Resolved config f ≠ Resolved output (patch_name (l + 1 - c)) →
     text_files d' !! Resolved output (patch_name (l + 1 - c))
     = Some (createPatch s s)).
Proof.
  intros Hf Ho (Hent & Hmeta & Hsnap) Hs Hl Hfile.
  destruct (entry_mainConfig _ _ _ _ Hent) as (m & Hm & Hm').
  eexists. split.
  - by eapply (ezPatch_patch createPatch default_output filter output config
                 Hf Ho).
  - unfold meta_of, lastVersion_of, entry_of. simpl.
    rewrite !lookup_insert_eq. repeat split; try done.
    intros Hx. rewrite lookup_insert_ne by done. by rewrite lookup_insert_eq.
Qed.

Lemma unchanged_text_consumes_a_version_witness :
  ∃ d',
    ezPatch replace_diff suffix_output "filter.txt" (Some "out") (Some "cfg")
      "k3v9" "q0a7" sample_disk = Ok DidPatch d' ∧
    meta_of "out" d' = Some (MetaObject (Some 0) (Some (0 + 1))) ∧
    lastVersion_of "filter.txt" "cfg" d' = Some (0 + 1) ∧
    (Resolved "cfg" "k3v9q0a7.txt" ≠ Resolved "out" (patch_name (0 + 1 - 0)) →
     text_files d' !! Resolved "out" (patch_name (0 + 1 - 0))
     = Some (replace_diff "a" "a")).
Proof.
  apply (unchanged_text_consumes_a_version replace_diff suffix_output
           "filter.txt" "out" "cfg" sample_disk "k3v9q0a7.txt" 0 0 "a"
           "k3v9" "q0a7").
  - reflexivity.
  - reflexivity.
  - repeat split; vm_compute; reflexivity.
  - discriminate.
  - lia.
  - vm_compute. reflexivity.
Defined.

Lemma entry_of_insert_other (filter config filter' cfg' : string) (d : Disk)
    (m : gmap string ConfigEntry) (e : ConfigEntry)
    (t : gmap path string) (ms : gmap string MetaFile) :
  mainConfig_of cfg' d = Some m →
  filter' ≠ filter →
  entry_of filter config
    (mkDisk t ms (<[cfg' := ConfigObject (<[filter' := e]> m)]> (config_files d)))
  = entry_of filter config d.
Proof.
  intros Hm Hne. unfold entry_of, mainConfig_of in *. simpl.
  destruct (decide (cfg' = config)) as [->|Hcfg].
  - rewrite lookup_insert_eq, lookup_insert_ne by done.
    destruct (config_files d !! config) as [[| |m0]|]; by simplify_eq.
  - by rewrite lookup_insert_ne.
Qed.

(** X12.  A call for another filter, with its own output folder and its
    own snapshot file, does not disturb a filter's history, also when
    both share the config folder: the filter's entry, its [meta.json] and
    its cached snapshot are as before. *)
Theorem other_filter_keeps_history (createPatch : string → string → string)
    (default_output : string → string) (filter output config : string)
    (snap : string) (ck lt : Z) (txt : string)
    (filter' : string) (output' config' : option string) (r1 r2 : string)
    (d d' : Disk) (o : outcome) :
  let out' := default (default_output filter') output' in
  let cfg' := default "nano-sync-config" config' in
  in_sync filter output config snap ck lt txt d →
  ezPatch createPatch default_output filter' output' config' r1 r2 d = Ok o d' →
  filter' ≠ filter →
  out' ≠ output →
  out' ≠ config →
  (∀ g v, entry_of filter' cfg' d' = Some (Entry (mkFilterConfig (Some g) v)) →
          Resolved cfg' g ≠ Resolved config snap) →
  in_sync filter output config snap ck lt txt d'.
Proof.
  intros out' cfg' (Hentry & Hmeta0 & Hsnap0) H Hfilter Hout Hcfg Hname.
  unfold in_sync, meta_of. rewrite <- Hentry, <- Hmeta0, <- Hsnap0.
  clear Hentry Hmeta0 Hsnap0.
  ezPatch_cases H; fold out' cfg' in Hname |- *;
    (split; [by apply entry_of_insert_other|]);
    (split; [simpl; by rewrite ?lookup_insert_ne|]).
  all: unfold entry_of in Hname; simpl in Hname;
    rewrite !lookup_insert_eq in Hname; simpl.
  - specialize (Hname _ _ eq_refl).
    rewrite lookup_insert_ne by done.
    by rewrite lookup_insert_ne by (intros [= ? ?]; done).
  - specialize (Hname _ _ eq_refl).
    rewrite lookup_insert_ne by done.
    by rewrite lookup_insert_ne by (intros [= ? ?]; done).
  - specialize (Hname _ _ eq_refl).
    rewrite lookup_insert_ne by done.
    by rewrite lookup_insert_ne by (intros [= ? ?]; done).
  - specialize (Hname _ _ eq_refl).
    rewrite lookup_insert_ne by done.
    by rewrite lookup_insert_ne by (intros [= ? ?]; done).
  - done.
Qed.

Lemma other_filter_keeps_history_witness :
  in_sync "filter.txt" "out" "cfg" "k3v9q0a7.txt" 0 0 "a"
          sample_disk_second_filter.
Proof.
  apply (other_filter_keeps_history replace_diff suffix_output
           "filter.txt" "out" "cfg" "k3v9q0a7.txt" 0 0 "a"
           "other.txt" (Some "other-out") (Some "cfg") "m2x8" "t5b1"
           (saved "other.txt" "z" sample_disk) sample_disk_second_filter
           DidCheckpoint).
  - repeat split; vm_compute; reflexivity.
  - vm_compute. reflexivity.
  - discriminate.
  - discriminate.
  - discriminate.
  - intros g v Hg. vm_compute in Hg. injection Hg as <- _. discriminate.
Defined.

(** ** Further properties of the command line *)

Lemma cli_parse_app (st : Cli.Options) (xs ys : list string) :
  Cli.parse st (xs ++ ys) =
  match Cli.parse st xs with
  | inl msg => inl msg
  | inr st' => Cli.parse st' ys
  end.
Proof.
  revert st. induction xs as [|x xs IH]; intros st; [done|].
  simpl. destruct (Cli.step st x); [done | apply IH].
Qed.

Lemma cli_step_filter (st st' : Cli.Options) (arg : string) :
  Cli.falsy (Cli.filter st) = false →
  Cli.step st arg = inr st' →
  Cli.filter st' = Cli.filter st.
Proof.
  intros Hf. unfold Cli.step. rewrite Hf.
  repeat case_match; intros [= <-]; done.
Qed.

Lemma cli_parse_filter (st st' : Cli.Options) (argv : list string) :
  Cli.falsy (Cli.filter st) = false →
  Cli.parse st argv = inr st' →
  Cli.filter st' = Cli.filter st.
Proof.
  revert st. induction argv as [|arg argv IH]; intros st Hf; simpl.
  - by intros [= <-].
  - destruct (Cli.step st arg) as [|st1] eqn:Hstep; [done|].
    intros H. rewrite <- (cli_step_filter st st1 arg Hf Hstep).
    apply IH; [|done]. by rewrite (cli_step_filter st st1 arg Hf Hstep).
Qed.

(** X13.  What the exit code of the command says.  Code 0 comes with an
    empty standard error and means [ezPatch] was called and returned.
    Code 1 comes with a diagnostic on standard error and means either
    that the arguments were rejected, in which case [ezPatch] was not
    called and the file system is as it was, or that [ezPatch] was called
    and threw.  There is no other exit code. *)
Theorem exit_code_tells (createPatch : string → string → string)
    (default_output : string → string) (argv : list string)
    (r1 r2 : string) (d : Disk) :
  let p := Cli.main createPatch default_output argv r1 r2 d in
  (Cli.exit_code p = 0 ∧ Cli.stderr p = [] ∧
   ∃ f output config o,
     Cli.called p = Some (f, output, config) ∧
     ezPatch createPatch default_output f output config r1 r2 d
       = Ok o (Cli.disk p)) ∨
  (Cli.exit_code p = 1 ∧ Cli.stderr p ≠ [] ∧
   ((Cli.called p = None ∧ Cli.disk p = d) ∨
    ∃ f output config e,
      Cli.called p = Some (f, output, config) ∧
      ezPatch createPatch default_output f output config r1 r2 d
        = Throw e (Cli.disk p))).
Proof.
  unfold Cli.main.
  destruct (Cli.parse Cli.initial argv) as [msg|st]; simpl.
  { right. repeat split; try done. by left. }
  destruct (Cli.filter st) as [f|]; simpl;
    [|right; repeat split; try done; by left].
  destruct (truthy f); simpl; [|right; repeat split; try done; by left].
  destruct (ezPatch _ _ _ _ _ _ _ d) as [o d'|e d'] eqn:E; simpl.
  - left. repeat split. by eexists _, _, _, _.
  - right. repeat split; try done. right. by eexists _, _, _, _.
Qed.

(** X14.  An option left without its value at the end of the command
    line is not reported: the run does exactly what it does without that
    trailing option. *)
Theorem trailing_option_is_ignored (createPatch : string → string → string)
    (default_output : string → string) (argv : list string)
    (st : Cli.Options) (flag r1 r2 : string) (d : Disk) :
  Cli.parse Cli.initial argv = inr st →
  Cli.falsy (Cli.filter st) = false →
  Cli.lastFlag st = None →
  Cli.startsWithDash flag = true →
  Cli.main createPatch default_output (argv ++ [flag]) r1 r2 d
  = Cli.main createPatch default_output argv r1 r2 d.
Proof.
  intros Hparse Hf Hlast Hflag. unfold Cli.main.
  rewrite cli_parse_app, Hparse. simpl.
  unfold Cli.step. rewrite Hf, Hflag, Hlast. done.
Qed.

Lemma trailing_option_is_ignored_witness :
  Cli.main replace_diff suffix_output (["filter.txt"; "-o"; "out"] ++ ["-c"])
    "k3v9" "q0a7" (saved "filter.txt" "a" empty_disk)
  = Cli.main replace_diff suffix_output ["filter.txt"; "-o"; "out"]
      "k3v9" "q0a7" (saved "filter.txt" "a" empty_disk).
Proof.
  apply (trailing_option_is_ignored replace_diff suffix_output
           ["filter.txt"; "-o"; "out"]
           (Cli.mkOptions (Some "filter.txt") (Some "out") None None)
           "-c" "k3v9" "q0a7" (saved "filter.txt" "a" empty_disk));
    reflexivity.
Defined.

Lemma cli_parse_empties (st : Cli.Options) (empties rest : list string) :
  Cli.falsy (Cli.filter st) = true →
  Forall (λ arg, arg = "") empties →
  ∃ st', Cli.falsy (Cli.filter st') = true ∧
         Cli.parse st (empties ++ rest) = Cli.parse st' rest.
Proof.
  intros Hf Hall. revert st Hf.
  induction Hall as [|arg empties -> _ IH]; intros st Hf.
  - by exists st.
  - simpl. unfold Cli.step. rewrite Hf. by apply IH.
Qed.

(** X15.  The first non-empty argument the option loop sees is the filter
    for good: empty arguments before it are passed over, it is taken
    even if it looks like an option, and no later argument replaces it.
    (The loop sees the whole of [process.argv], so this argument is the
    interpreter's path.) *)
Theorem filter_is_first_argument (empties : list string) (first : string)
    (argv : list string) (st : Cli.Options) :
  Forall (λ arg, arg = "") empties →
  truthy first = true →
  Cli.parse Cli.initial (empties ++ first :: argv) = inr st →
  Cli.filter st = Some first.
Proof.
  intros Hempties Hfirst Hparse.
  destruct (cli_parse_empties Cli.initial empties (first :: argv) eq_refl
              Hempties) as (st0 & Hf0 & Heq).
  rewrite Heq in Hparse. simpl in Hparse. unfold Cli.step in Hparse.
  rewrite Hf0 in Hparse.
  apply cli_parse_filter in Hparse; [done|]. simpl. by rewrite Hfirst.
Qed.

Lemma filter_is_first_argument_witness :
  Cli.filter (Cli.mkOptions (Some "-o") (Some "out") None None) = Some "-o".
Proof.
  apply (filter_is_first_argument [""; ""] "-o" ["-o"; "out"]
           (Cli.mkOptions (Some "-o") (Some "out") None None)).
  - repeat constructor.
  - reflexivity.
  - reflexivity.
Defined.

(** X16.  Once the filter is taken and no option is pending, the option
    loop accepts the documented syntax: any sequence of [-o value] and
    [-c value] whose values do not start with a dash is read without
    error, each option setting its variable, so that options may come in
    any order and a repeated option keeps its last value. *)
Theorem options_are_read (st : Cli.Options) (opts : list CliSyntax.Opt) :
  Cli.falsy (Cli.filter st) = false →
  Cli.lastFlag st = None →
  Forall (λ o, Cli.startsWithDash (CliSyntax.value o) = false) opts →
  Cli.parse st (concat (CliSyntax.render <$> opts))
  = inr (foldl CliSyntax.set st opts).
Proof.
  intros Hf Hlast Hall. revert st Hf Hlast.
  induction Hall as [|o opts Ho _ IH]; intros st Hf Hlast; [done|].
  simpl. rewrite cli_parse_app.
  assert (Cli.parse st (CliSyntax.render o) = inr (CliSyntax.set st o)) as ->.
  { destruct o as [v|v]; simpl in *; unfold Cli.step; simpl;
      rewrite Hf, Hlast; simpl; rewrite Hf, Ho; done. }
  apply IH; by destruct o.
Qed.

Lemma options_are_read_witness :
  Cli.parse (Cli.mkOptions (Some "filter.txt") None None None)
    (concat (CliSyntax.render <$>
       [CliSyntax.Config "c1"; CliSyntax.Output "o1"; CliSyntax.Config "c2"]))
  = inr (foldl CliSyntax.set
           (Cli.mkOptions (Some "filter.txt") None None None)
           [CliSyntax.Config "c1"; CliSyntax.Output "o1"; CliSyntax.Config "c2"]).
Proof.
  apply (options_are_read
           (Cli.mkOptions (Some "filter.txt") None None None)
           [CliSyntax.Config "c1"; CliSyntax.Output "o1"; CliSyntax.Config "c2"]).
  - reflexivity.
  - reflexivity.
  - repeat constructor.
Defined.
